(** * Space-Orbit for M5Stack: a shallow embedding of the simulation core

    The sketch [Space-Orbit_for_M5Stack.ino] keeps an Earth at the centre of a
    320x240 screen, a Moon on a circle around it and a list of spacecraft that
    are integrated with RK4 once per frame.  This file embeds the per-frame
    logic (collision tests, integrator, trails, effects, tap handling, the
    frame loop and the draw list) and proves the properties of the written
    description against it.

    The C++ code computes on [double].  Every function below is written once,
    over an arithmetic interface [Arith], in the order and association of the
    source.  Two instances are given:
    - [float_arith]: IEEE 754 binary64 ([PrimFloat]), the arithmetic the
      sketch runs on; it evaluates, so concrete taps and frames are computed;
    - [real_arith]: the real numbers, the exact reading in which the
      mathematical statements (RK4, orbital energy, linearity) are made. *)

From Stdlib Require Import ZArith List Bool Lia.
From Stdlib Require Import Floats Uint63.
From Stdlib Require Import Reals Lra.
Import ListNotations.

Local Open Scope Z_scope.

(** ** Machine integers *)

(** [int] is 32 bits on the target; a result is kept in the signed range by
    two's-complement wrap-around. *)
Definition INT_MIN : Z := - 2 ^ 31.
Definition INT_MAX : Z := 2 ^ 31 - 1.

Definition wrap_int (z : Z) : Z := (z + 2 ^ 31) mod 2 ^ 32 - 2 ^ 31.

Definition int_sub (a b : Z) : Z := wrap_int (a - b).

(** [unsigned long] is 32 bits on the target ([millis()] and the frame timer). *)
Definition ulong_sub (a b : Z) : Z := (a - b) mod 2 ^ 32.

(** ** The arithmetic interface for [double] *)

Class Arith (T : Type) : Type := {
  of_int : Z -> T;          (* conversion int -> double *)
  add : T -> T -> T;
  sub : T -> T -> T;
  mul : T -> T -> T;
  div : T -> T -> T;
  neg : T -> T;
  sqrt : T -> T;            (* std::sqrt *)
  leb : T -> T -> bool;     (* <= *)
  ltb : T -> T -> bool;     (* <  *)
  to_int : T -> Z           (* conversion double -> int: truncation *)
}.

(** [std::cos] and [std::sin], used by the Moon driver only. *)
Class Libm (T : Type) : Type := {
  cos : T -> T;
  sin : T -> T
}.

Declare Scope arith_scope.
Delimit Scope arith_scope with A.
Infix "+" := add : arith_scope.
Infix "-" := sub : arith_scope.
Infix "*" := mul : arith_scope.
Infix "/" := div : arith_scope.
Notation "- x" := (neg x) : arith_scope.
Infix "<=?" := leb : arith_scope.
Infix "<?" := ltb : arith_scope.

(** *** binary64 *)

(** int -> double.  Exact for every 32-bit integer. *)
Definition float_of_int (z : Z) : float :=
  match z with
  | Z0 => PrimFloat.of_uint63 0%uint63
  | Zpos _ => PrimFloat.of_uint63 (Uint63.of_Z z)
  | Zneg p => PrimFloat.opp (PrimFloat.of_uint63 (Uint63.of_Z (Zpos p)))
  end.

(** double -> int, rounding toward zero.  C++ leaves the conversion of NaN,
    infinities and out-of-range values undefined; they are sent to 0 here. *)
Definition float_to_int (f : float) : Z :=
  match Prim2SF f with
  | S754_finite s m e =>
      let v := if 0 <=? e then Z.pos m * 2 ^ e else Z.pos m / 2 ^ (- e) in
      if s then - v else v
  | _ => 0
  end.

#[export] Instance float_arith : Arith float := {
  of_int := float_of_int;
  add := PrimFloat.add;
  sub := PrimFloat.sub;
  mul := PrimFloat.mul;
  div := PrimFloat.div;
  neg := PrimFloat.opp;
  sqrt := PrimFloat.sqrt;
  leb := PrimFloat.leb;
  ltb := PrimFloat.ltb;
  to_int := float_to_int
}.

(** *** Exact reals *)

Definition Rleb (a b : R) : bool := if Rle_dec a b then true else false.
Definition Rltb (a b : R) : bool := if Rlt_dec a b then true else false.

(** Truncation toward zero of an exact real.  It completes the exact
    instance; what the sketch draws is stated with the conversion of the
    arithmetic it is computed in (see [float_to_int] for binary64). *)
Definition Rtrunc (r : R) : Z :=
  if Rle_dec 0 r then Int_part r else - Int_part (- r).

#[export] Instance real_arith : Arith R := {
  of_int := IZR;
  add := Rplus;
  sub := Rminus;
  mul := Rmult;
  div := Rdiv;
  neg := Ropp;
  sqrt := R_sqrt.sqrt;
  leb := Rleb;
  ltb := Rltb;
  to_int := Rtrunc
}.

#[export] Instance real_libm : Libm R := {
  cos := Rtrigo_def.cos;
  sin := Rtrigo_def.sin
}.

(** ** Constants *)

Definition EARTH_RADIUS : Z := 15.
Definition MOON_RADIUS : Z := 5.
Definition MOON_DISTANCE : Z := 100.
Definition TRAIL_LENGTH : Z := 50.
Definition MOON_TRAIL_LENGTH : Z := 360.   (* the literal 360 of updateMoonPosition *)
Definition WIDTH : Z := 320.
Definition HEIGHT : Z := 240.

(** [WIDTH / 2] and [HEIGHT / 2] are integer divisions. *)
Definition CENTER_X : Z := Z.quot WIDTH 2.
Definition CENTER_Y : Z := Z.quot HEIGHT 2.

(** RGB565 packing of the display library ([M5.Lcd.color565]). *)
Definition color565 (r g b : Z) : Z :=
  Z.lor (Z.lor (Z.shiftl (Z.shiftr r 3) 11) (Z.shiftl (Z.shiftr g 2) 5))
        (Z.shiftr b 3).

Definition EARTH_COLOR : Z := color565 255 100 0.
Definition MOON_COLOR : Z := color565 255 255 0.
Definition BOUND_ORBIT_COLOR : Z := color565 0 255 0.
Definition ESCAPE_ORBIT_COLOR : Z := color565 0 255 255.
Definition SPACECRAFT_COLOR : Z := color565 255 255 255.
Definition TRAIL_COLOR : Z := color565 100 100 100.
Definition TFT_BLACK : Z := 0.
Definition TFT_WHITE : Z := 65535.
Definition BG_COLOR : Z := TFT_BLACK.

(** ** Data *)

Record Vector (T : Type) : Type := mkVector { x : T; y : T }.
Arguments mkVector {T} _ _.
Arguments x {T} _.
Arguments y {T} _.

Record SparkleEffect (T : Type) : Type := mkSparkle {
  sp_x : T; sp_y : T; sp_life : Z
}.
Arguments mkSparkle {T} _ _ _.
Arguments sp_x {T} _.
Arguments sp_y {T} _.
Arguments sp_life {T} _.

Record ExplosionEffect (T : Type) : Type := mkExplosion {
  ex_x : T; ex_y : T; ex_size : Z; ex_life : Z; ex_alpha : T
}.
Arguments mkExplosion {T} _ _ _ _ _.
Arguments ex_x {T} _.
Arguments ex_y {T} _.
Arguments ex_size {T} _.
Arguments ex_life {T} _.
Arguments ex_alpha {T} _.

Record Spacecraft (T : Type) : Type := mkSpacecraft {
  position : Vector T;
  velocity : Vector T;
  trail : list (Vector T);
  energy : T;
  prevEnergy : T;
  sparkle : bool
}.
Arguments mkSpacecraft {T} _ _ _ _ _ _.
Arguments position {T} _.
Arguments velocity {T} _.
Arguments trail {T} _.
Arguments energy {T} _.
Arguments prevEnergy {T} _.
Arguments sparkle {T} _.

(** The globals of the sketch, with the function-static [lastFrameTime] of
    [loop]. *)
Record Sim (T : Type) : Type := mkSim {
  moonAngle : T;
  moonX : T;
  moonY : T;
  moonTrail : list (Vector T);
  spacecrafts : list (Spacecraft T);
  sparkleEffects : list (SparkleEffect T);
  explosionEffects : list (ExplosionEffect T);
  lastFrameTime : Z
}.
Arguments mkSim {T} _ _ _ _ _ _ _ _.
Arguments moonAngle {T} _.
Arguments moonX {T} _.
Arguments moonY {T} _.
Arguments moonTrail {T} _.
Arguments spacecrafts {T} _.
Arguments sparkleEffects {T} _.
Arguments explosionEffects {T} _.
Arguments lastFrameTime {T} _.

(** ** The program *)

Section Program.
Context {T : Type} {AR : Arith T}.
Local Open Scope arith_scope.

(** Literals of the source.  A decimal literal is the exact ratio rounded
    once, which is what the division of two exactly represented integers
    yields (see [float_literals] for binary64). *)
Definition lit_0_5 : T := of_int 1 / of_int 2.
Definition lit_0_1 : T := of_int 1 / of_int 10.
Definition lit_0_005 : T := of_int 5 / of_int 1000.
Definition one_sixth : T := of_int 1 / of_int 6.      (* 1.0/6.0 *)

Definition MOON_ANGULAR_VELOCITY : T := lit_0_005.
Definition MU_EARTH : T := of_int 2500.
Definition MU_MOON : T := of_int 250.

(** [std::pow(a, 2)]: the squaring case of [pow] is the single rounded
    product [a * a]. *)
Definition pow2 (a : T) : T := a * a.

(** *** class Vector *)

Definition Vector_add (v1 v2 : Vector T) : Vector T :=
  mkVector (x v1 + x v2) (y v1 + y v2).

Definition Vector_sub (v1 v2 : Vector T) : Vector T :=
  mkVector (x v1 - x v2) (y v1 - y v2).

Definition Vector_mult (v : Vector T) (scalar : T) : Vector T :=
  mkVector (x v * scalar) (y v * scalar).

Definition Vector_mag (v : Vector T) : T :=
  sqrt (x v * x v + y v * y v).

(** [addTo] mutates the receiver; the new value of the receiver is returned. *)
Definition Vector_addTo (this vec : Vector T) : Vector T :=
  mkVector (x this + x vec) (y this + y vec).

(** *** Spacecraft::calculateAcceleration *)

Definition calculateAcceleration (mX mY : T) (pos : Vector T) : Vector T :=
  let rEarth := mkVector (of_int CENTER_X - x pos) (of_int CENTER_Y - y pos) in
  let rEarthMag := Vector_mag rEarth in
  let aEarth :=
    Vector_mult rEarth (MU_EARTH / (rEarthMag * rEarthMag * rEarthMag)) in
  let rMoon := mkVector (mX - x pos) (mY - y pos) in
  let rMoonMag := Vector_mag rMoon in
  let aMoon :=
    Vector_mult rMoon (MU_MOON / (rMoonMag * rMoonMag * rMoonMag)) in
  Vector_add aEarth aMoon.

(** *** Spacecraft::update *)

(** The two distances of the collision tests. *)
Definition distToEarth (p : Vector T) : T :=
  sqrt (pow2 (x p - of_int CENTER_X) + pow2 (y p - of_int CENTER_Y)).

Definition distToMoon (mX mY : T) (p : Vector T) : T :=
  sqrt (pow2 (x p - mX) + pow2 (y p - mY)).

Definition explosion_at (p : Vector T) (size : Z) : ExplosionEffect T :=
  mkExplosion (x p) (y p) size 30 (of_int 255).

(** Lines 161-197: the RK4 stages and the two [addTo]; returns the new
    (position, velocity). *)
Definition rk4_step (mX mY : T) (pos vel : Vector T) : Vector T * Vector T :=
  let k1v := calculateAcceleration mX mY pos in
  let k1r := Vector_mult vel (of_int 1) in
  let tempPos := Vector_add pos (Vector_mult k1r lit_0_5) in
  let tempVel := Vector_add vel (Vector_mult k1v lit_0_5) in
  let k2v := calculateAcceleration mX mY tempPos in
  let k2r := Vector_mult tempVel (of_int 1) in
  let tempPos := Vector_add pos (Vector_mult k2r lit_0_5) in
  let tempVel := Vector_add vel (Vector_mult k2v lit_0_5) in
  let k3v := calculateAcceleration mX mY tempPos in
  let k3r := Vector_mult tempVel (of_int 1) in
  let tempPos := Vector_add pos k3r in
  let tempVel := Vector_add vel k3v in
  let k4v := calculateAcceleration mX mY tempPos in
  let k4r := Vector_mult tempVel (of_int 1) in
  let dv :=
    Vector_mult
      (Vector_add (Vector_add k1v (Vector_mult k2v (of_int 2)))
                  (Vector_add (Vector_mult k3v (of_int 2)) k4v))
      one_sixth in
  let dr :=
    Vector_mult
      (Vector_add (Vector_add k1r (Vector_mult k2r (of_int 2)))
                  (Vector_add (Vector_mult k3r (of_int 2)) k4r))
      one_sixth in
  (Vector_addTo pos dr, Vector_addTo vel dv).

(** [trail.push_back(p); if (trail.size() > cap) trail.erase(trail.begin())] *)
Definition push_trail (cap : Z) (tr : list (Vector T)) (p : Vector T)
  : list (Vector T) :=
  let tr' := tr ++ [p] in
  if (cap <? Z.of_nat (length tr'))%Z then tl tr' else tr'.

(** Lines 205-208. *)
Definition earth_energy (pos vel : Vector T) : T :=
  let rE := sqrt (pow2 (x pos - of_int CENTER_X) + pow2 (y pos - of_int CENTER_Y)) in
  let v := Vector_mag vel in
  lit_0_5 * v * v - MU_EARTH / rE.

(** The member function reads the globals [moonX], [moonY] and appends to
    the globals [sparkleEffects] and [explosionEffects]; it returns the flag
    "remove me", the receiver after the call and the globals after it. *)
Definition Spacecraft_update (s : Spacecraft T) (g : Sim T)
  : bool * Spacecraft T * Sim T :=
  if distToEarth (position s) <=? of_int EARTH_RADIUS then
    (true, s,
     mkSim (moonAngle g) (moonX g) (moonY g) (moonTrail g) (spacecrafts g)
           (sparkleEffects g)
           (explosionEffects g ++ [explosion_at (position s) 15])
           (lastFrameTime g))
  else if distToMoon (moonX g) (moonY g) (position s) <=? of_int MOON_RADIUS then
    (true, s,
     mkSim (moonAngle g) (moonX g) (moonY g) (moonTrail g) (spacecrafts g)
           (sparkleEffects g)
           (explosionEffects g ++ [explosion_at (position s) 10])
           (lastFrameTime g))
  else
    let prevE := energy s in
    let '(pos', vel') := rk4_step (moonX g) (moonY g) (position s) (velocity s) in
    let trail' := push_trail TRAIL_LENGTH (trail s) (mkVector (x pos') (y pos')) in
    let energy' := earth_energy pos' vel' in
    let energyIncrease := energy' - prevE in
    if lit_0_1 <? energyIncrease then
      (false, mkSpacecraft pos' vel' trail' energy' prevE true,
       mkSim (moonAngle g) (moonX g) (moonY g) (moonTrail g) (spacecrafts g)
             (sparkleEffects g ++ [mkSparkle (x pos') (y pos') 20])
             (explosionEffects g)
             (lastFrameTime g))
    else
      (false, mkSpacecraft pos' vel' trail' energy' prevE false, g).

(** *** addSpacecraft *)

Definition Spacecraft_new (px py vx vy : T) : Spacecraft T :=
  mkSpacecraft (mkVector px py) (mkVector vx vy) [] (of_int 0) (of_int 0) false.

(** Distance of a tap from the screen centre, as line 278 computes it. *)
Definition dEarth (tx ty : Z) : T :=
  sqrt (pow2 (of_int (int_sub tx CENTER_X)) + pow2 (of_int (int_sub ty CENTER_Y))).

Definition tap_speed (tx ty : Z) : T :=
  let dirX := of_int (int_sub tx CENTER_X) in
  let dirY := of_int (int_sub ty CENTER_Y) in
  let dirMag := sqrt (dirX * dirX + dirY * dirY) in
  of_int 1 + of_int 3 * (dirMag / of_int CENTER_X).

Definition addSpacecraft (tx ty : Z) (g : Sim T) : Sim T :=
  if dEarth tx ty <? of_int EARTH_RADIUS then
    mkSim (moonAngle g) (moonX g) (moonY g) (moonTrail g) []
          [] (explosionEffects g) (lastFrameTime g)
  else
    let dirX := of_int (int_sub tx CENTER_X) in
    let dirY := of_int (int_sub ty CENTER_Y) in
    let dirMag := sqrt (dirX * dirX + dirY * dirY) in
    let speed := of_int 1 + of_int 3 * (dirMag / of_int CENTER_X) in
    let vx := dirY / dirMag * speed in
    let vy := (- dirX) / dirMag * speed in
    mkSim (moonAngle g) (moonX g) (moonY g) (moonTrail g)
          (spacecrafts g ++ [Spacecraft_new (of_int tx) (of_int ty) vx vy])
          (sparkleEffects g) (explosionEffects g) (lastFrameTime g).

(** *** updateMoonPosition *)

Definition updateMoonPosition {LM : Libm T} (g : Sim T) : Sim T :=
  let mX := of_int CENTER_X + of_int MOON_DISTANCE * cos (moonAngle g) in
  let mY := of_int CENTER_Y + of_int MOON_DISTANCE * sin (moonAngle g) in
  mkSim (moonAngle g) mX mY
        (push_trail MOON_TRAIL_LENGTH (moonTrail g) (mkVector mX mY))
        (spacecrafts g) (sparkleEffects g) (explosionEffects g)
        (lastFrameTime g).

(** *** The three reverse loops of [loop] *)

(** [v[i] = e] and [v.erase(v.begin() + i)] on a vector held as a list.  Both
    are only called with [i] in range. *)
Definition assign_at {A : Type} (i : nat) (e : A) (v : list A) : list A :=
  firstn i v ++ e :: skipn (S i) v.

Definition erase_at {A : Type} (i : nat) (v : list A) : list A :=
  firstn i v ++ skipn (S i) v.

(** Body of the spacecraft loop for index [i]: [spacecrafts[i].update()]
    mutates the element in place (and the effect globals), then the element
    is erased when the call returned true. *)
Definition update_spacecraft_at (i : nat) (g : Sim T) : Sim T :=
  match nth_error (spacecrafts g) i with
  | None => g
  | Some s =>
      let '(destroyed, s', g') := Spacecraft_update s g in
      let v := assign_at i s' (spacecrafts g') in
      mkSim (moonAngle g') (moonX g') (moonY g') (moonTrail g')
            (if destroyed then erase_at i v else v)
            (sparkleEffects g') (explosionEffects g') (lastFrameTime g')
  end.

(** [for (int i = n - 1; i >= 0; i--) body(i)] *)
Fixpoint update_spacecrafts_from (n : nat) (g : Sim T) : Sim T :=
  match n with
  | O => g
  | S i => update_spacecrafts_from i (update_spacecraft_at i g)
  end.

Definition update_spacecrafts (g : Sim T) : Sim T :=
  update_spacecrafts_from (length (spacecrafts g)) g.

Definition age_explosion (e : ExplosionEffect T) : ExplosionEffect T :=
  let life' := wrap_int (ex_life e - 1) in
  mkExplosion (ex_x e) (ex_y e) (ex_size e) life'
              (of_int 255 * (of_int life' / of_int 30)).

Definition age_explosion_at (i : nat) (v : list (ExplosionEffect T))
  : list (ExplosionEffect T) :=
  match nth_error v i with
  | None => v
  | Some e =>
      let e' := age_explosion e in
      let v' := assign_at i e' v in
      if (ex_life e' <=? 0)%Z then erase_at i v' else v'
  end.

Fixpoint age_explosions_from (n : nat) (v : list (ExplosionEffect T))
  : list (ExplosionEffect T) :=
  match n with
  | O => v
  | S i => age_explosions_from i (age_explosion_at i v)
  end.

Definition age_explosions (v : list (ExplosionEffect T))
  : list (ExplosionEffect T) :=
  age_explosions_from (length v) v.

Definition age_sparkle (e : SparkleEffect T) : SparkleEffect T :=
  mkSparkle (sp_x e) (sp_y e) (wrap_int (sp_life e - 1)).

Definition age_sparkle_at (i : nat) (v : list (SparkleEffect T))
  : list (SparkleEffect T) :=
  match nth_error v i with
  | None => v
  | Some e =>
      let e' := age_sparkle e in
      let v' := assign_at i e' v in
      if (sp_life e' <=? 0)%Z then erase_at i v' else v'
  end.

Fixpoint age_sparkles_from (n : nat) (v : list (SparkleEffect T))
  : list (SparkleEffect T) :=
  match n with
  | O => v
  | S i => age_sparkles_from i (age_sparkle_at i v)
  end.

Definition age_sparkles (v : list (SparkleEffect T)) : list (SparkleEffect T) :=
  age_sparkles_from (length v) v.

(** *** Drawing *)

(** The calls made on the sprite, in order. *)
Inductive DrawCmd : Type :=
| FillScreen (color : Z)
| DrawLine (x0 y0 x1 y1 color : Z)
| FillCircle (cx cy r color : Z)
| SetCursor (cx cy : Z)
| SetTextColor (fg bg : Z)
| PrintShips (n : Z)
| PushSprite (px py : Z).

(** [for (i = 1; i < v.size(); i++) drawLine(v[i-1], v[i], color)] *)
Fixpoint draw_polyline (color : Z) (v : list (Vector T)) : list DrawCmd :=
  match v with
  | a :: (b :: _) as rest =>
      DrawLine (to_int (x a)) (to_int (y a)) (to_int (x b)) (to_int (y b)) color
      :: draw_polyline color rest
  | _ => []
  end.

(** Orbit colour of [Spacecraft::draw]. *)
Definition orbitColor (s : Spacecraft T) : Z :=
  if energy s <? of_int 0 then BOUND_ORBIT_COLOR else ESCAPE_ORBIT_COLOR.

Definition Spacecraft_draw (s : Spacecraft T) : list DrawCmd :=
  draw_polyline (orbitColor s) (trail s)
  ++ [FillCircle (to_int (x (position s))) (to_int (y (position s))) 2
                 SPACECRAFT_COLOR].


(** [int size = effect.size * (1 - effect.life / 30.0)] *)
Definition explosion_draw_size (e : ExplosionEffect T) : Z :=
  to_int (of_int (ex_size e) * (of_int 1 - of_int (ex_life e) / of_int 30)).

(** [static_cast<uint8_t>(255 * (1 - effect.life / 30.0))] *)
Definition explosion_green (e : ExplosionEffect T) : Z :=
  (to_int (of_int 255 * (of_int 1 - of_int (ex_life e) / of_int 30))) mod 256.

Definition explosion_draw (e : ExplosionEffect T) : DrawCmd :=
  FillCircle (to_int (ex_x e)) (to_int (ex_y e)) (explosion_draw_size e)
             (color565 255 (explosion_green e) 0).

Definition sparkle_draw (e : SparkleEffect T) : list DrawCmd :=
  let px := to_int (sp_x e) in
  let py := to_int (sp_y e) in
  let size := 3%Z in
  let sparkle_color := color565 255 255 255 in
  [DrawLine (px - size) py (px + size) py sparkle_color;
   DrawLine px (py - size) px (py + size) sparkle_color].

(** [drawToSprite], with the sprite allocated (as [setup] leaves it). *)
Definition drawToSprite (g : Sim T) : list DrawCmd :=
  [FillScreen BG_COLOR]
  ++ draw_polyline TRAIL_COLOR (moonTrail g)
  ++ [FillCircle CENTER_X CENTER_Y EARTH_RADIUS EARTH_COLOR]
  ++ [FillCircle (to_int (moonX g)) (to_int (moonY g)) MOON_RADIUS MOON_COLOR]
  ++ flat_map Spacecraft_draw (spacecrafts g)
  ++ map explosion_draw (explosionEffects g)
  ++ flat_map sparkle_draw (sparkleEffects g)
  ++ [SetCursor 5 5; SetTextColor TFT_WHITE TFT_BLACK;
      PrintShips (Z.of_nat (length (spacecrafts g)))].

(** *** setup and loop *)

(** The state [setup] leaves: angle 0, the Moon placed once, nothing else. *)
Definition setup {LM : Libm T} : Sim T :=
  updateMoonPosition
    (mkSim (of_int 0) (of_int 0) (of_int 0) [] [] [] [] 0).

(** One frame that passed the 33 ms gate: the work of [loop] between the
    gate and the drawing.  [touch] is the press event of this frame, if any. *)
Definition tick {LM : Libm T} (touch : option (Z * Z)) (g : Sim T) : Sim T :=
  let g1 := match touch with
            | Some (tx, ty) => addSpacecraft tx ty g
            | None => g
            end in
  let g2 := updateMoonPosition
              (mkSim (moonAngle g1 + MOON_ANGULAR_VELOCITY) (moonX g1) (moonY g1)
                     (moonTrail g1) (spacecrafts g1) (sparkleEffects g1)
                     (explosionEffects g1) (lastFrameTime g1)) in
  let g3 := update_spacecrafts g2 in
  mkSim (moonAngle g3) (moonX g3) (moonY g3) (moonTrail g3) (spacecrafts g3)
        (age_sparkles (sparkleEffects g3))
        (age_explosions (explosionEffects g3))
        (lastFrameTime g3).

(** [loop()] called at time [currentTime] (the value of [millis()]): the new
    globals and the calls made on the sprite. *)
Definition loop {LM : Libm T} (currentTime : Z) (touch : option (Z * Z))
  (g : Sim T) : Sim T * list DrawCmd :=
  if (ulong_sub currentTime (lastFrameTime g) <? 33)%Z then (g, [])
  else
    let g0 := mkSim (moonAngle g) (moonX g) (moonY g) (moonTrail g)
                    (spacecrafts g) (sparkleEffects g) (explosionEffects g)
                    currentTime in
    let g' := tick touch g0 in
    (g', drawToSprite g' ++ [PushSprite 0 0]).

(** A run of the sketch: [setup], then one [loop] call per list element. *)
Fixpoint run_from {LM : Libm T} (g : Sim T) (calls : list (Z * option (Z * Z)))
  : Sim T :=
  match calls with
  | [] => g
  | (now, touch) :: rest => run_from (fst (loop now touch g)) rest
  end.

Definition run {LM : Libm T} (calls : list (Z * option (Z * Z))) : Sim T :=
  run_from setup calls.

End Program.

(** ** The written description, as definitions of its own

    These follow the words of the description, not the code; the theorems
    below compare them with the program. *)

Module Described.
Local Open Scope R_scope.

Definition R2 : Type := (R * R)%type.

Definition vplus (a b : R2) : R2 := (fst a + fst b, snd a + snd b).
Definition vminus (a b : R2) : R2 := (fst a - fst b, snd a - snd b).
Definition vscale (c : R) (a : R2) : R2 := (c * fst a, c * snd a).
Definition norm (a : R2) : R := R_sqrt.sqrt (fst a ^ 2 + snd a ^ 2).

(** A phase-space point (r, v) and the vector operations on it. *)
Definition Phase : Type := (R2 * R2)%type.

Definition pplus (p q : Phase) : Phase := (vplus (fst p) (fst q), vplus (snd p) (snd q)).
Definition pscale (c : R) (p : Phase) : Phase := (vscale c (fst p), vscale c (snd p)).

(** Classical fourth-order Runge-Kutta for y' = f(y) with step [dt]. *)
Definition classical_rk4 (f : Phase -> Phase) (dt : R) (y0 : Phase) : Phase :=
  let k1 := f y0 in
  let k2 := f (pplus y0 (pscale (dt / 2) k1)) in
  let k3 := f (pplus y0 (pscale (dt / 2) k2)) in
  let k4 := f (pplus y0 (pscale dt k3)) in
  pplus y0
    (pscale dt
       (pscale (/ 6) (pplus (pplus k1 (pscale 2 k2)) (pplus (pscale 2 k3) k4)))).

(** The coupled system dr/dt = v, dv/dt = a(r). *)
Definition orbit_ode (a : R2 -> R2) (p : Phase) : Phase := (snd p, a (fst p)).

(** Pull of one body of parameter [mu] at [c] on a point at [r]:
    mu * r_vec / |r_vec|^3 with r_vec the vector from [r] to the body. *)
Definition pull (mu : R) (c r : R2) : R2 :=
  let r_vec := vminus c r in
  (mu * fst r_vec / norm r_vec ^ 3, mu * snd r_vec / norm r_vec ^ 3).

(** The sum over Earth (at the screen centre) and Moon. *)
Definition gravity (moon : R2) (r : R2) : R2 :=
  vplus (pull 2500 (160, 120) r) (pull 250 moon r).

(** Earth-centred specific orbital energy: |v|^2 / 2 - mu_Earth / r_Earth. *)
Definition specific_orbital_energy (r v : R2) : R :=
  (fst v ^ 2 + snd v ^ 2) / 2 - 2500 / norm (vminus r (160, 120)).


End Described.

Section DescribedGeneric.
Context {T : Type} {AR : Arith T}.
Local Open Scope arith_scope.

(** Newest appended at the back, oldest (the front) evicted once the cap is
    reached. *)
Definition fifo_push (cap : nat) (tr : list (Vector T)) (p : Vector T)
  : list (Vector T) :=
  if (length tr <? cap)%nat then tr ++ [p] else tl tr ++ [p].

(** Rotation by a quarter turn: (a, b) goes to (b, -a). *)
Definition quarter_turn (u : Vector T) : Vector T := mkVector (y u) (- x u).

(** Unit vector from the screen centre to the tap. *)
Definition tap_direction (tx ty : Z) : Vector T :=
  let d := mkVector (of_int (int_sub tx CENTER_X)) (of_int (int_sub ty CENTER_Y)) in
  mkVector (x d / Vector_mag d) (y d / Vector_mag d).





(** The globals with the two lists a reset tap clears emptied. *)
Definition cleared (g : Sim T) : Sim T :=
  mkSim (moonAngle g) (moonX g) (moonY g) (moonTrail g) [] []
        (explosionEffects g) (lastFrameTime g).

(** The globals with one more explosion / one more sparkle / one more craft. *)
Definition with_explosion (g : Sim T) (e : ExplosionEffect T) : Sim T :=
  mkSim (moonAngle g) (moonX g) (moonY g) (moonTrail g) (spacecrafts g)
        (sparkleEffects g) (explosionEffects g ++ [e]) (lastFrameTime g).

Definition with_sparkle (g : Sim T) (e : SparkleEffect T) : Sim T :=
  mkSim (moonAngle g) (moonX g) (moonY g) (moonTrail g) (spacecrafts g)
        (sparkleEffects g ++ [e]) (explosionEffects g) (lastFrameTime g).

Definition with_spacecraft (g : Sim T) (s : Spacecraft T) : Sim T :=
  mkSim (moonAngle g) (moonX g) (moonY g) (moonTrail g) (spacecrafts g ++ [s])
        (sparkleEffects g) (explosionEffects g) (lastFrameTime g).

Definition trails_capped (g : Sim T) : Prop :=
  Forall (fun s => (length (trail s) <= 50)%nat) (spacecrafts g)
  /\ (length (moonTrail g) <= 360)%nat.

End DescribedGeneric.

(** Vectors of the program read as pairs of reals. *)
Definition pair_of (v : Vector R) : Described.R2 := (x v, y v).

(** ** Sample data for the concrete evaluations (binary64) *)

Definition sample_globals : Sim float :=
  mkSim 0%float 260%float 120%float [] [] [] [] 0.

(** A craft 10 pixels right of the Earth's centre, one 2 pixels left of the
    Moon's centre, and one far from both. *)
Definition craft_in_earth : Spacecraft float :=
  Spacecraft_new 170%float 120%float 0%float 2%float.
Definition craft_in_moon : Spacecraft float :=
  Spacecraft_new 258%float 120%float 0%float 2%float.
Definition craft_free : Spacecraft float :=
  Spacecraft_new 160%float 60%float 6%float 0%float.

Definition busy_globals : Sim float :=
  mkSim 0%float 260%float 120%float [] [craft_free]
        [mkSparkle 100%float 50%float 7] [explosion_at (mkVector 170%float 120%float) 15] 0.

(** A faster craft at the same place, and an explosion one frame old. *)
Definition craft_fast : Spacecraft float :=
  Spacecraft_new 160%float 60%float 10%float 0%float.


(** The same in exact arithmetic: the Moon at angle 0 and a craft 130 pixels
    from both bodies. *)
Definition real_globals : Sim R :=
  mkSim 0%R 260%R 120%R [] [] [] [] 0.
Definition real_craft : Spacecraft R :=
  Spacecraft_new 210%R 0%R 2%R 0%R.
Definition real_explosion : ExplosionEffect R :=
  mkExplosion 170%R 120%R 15 30 255%R.

(** Offsets -15 .. 15 around the centre, for the taps on and inside the
    Earth's rim. *)
Definition offsets : list Z := map (fun n => Z.of_nat n - 15) (seq 0 31).

Definition rim_tap_ok (dx dy : Z) : bool :=
  let tx := CENTER_X + dx in
  let ty := CENTER_Y + dy in
  negb (dx * dx + dy * dy =? 225)
  || (negb (ltb (dEarth (T:=float) tx ty) (of_int EARTH_RADIUS))
      && leb (distToEarth (mkVector (of_int (T:=float) tx) (of_int ty)))
             (of_int EARTH_RADIUS)).

Definition inner_tap_ok (dx dy : Z) : bool :=
  negb (dx * dx + dy * dy <? 225)
  || ltb (dEarth (T:=float) (CENTER_X + dx) (CENTER_Y + dy)) (of_int EARTH_RADIUS).

Definition all_offsets (f : Z -> Z -> bool) : bool :=
  forallb (fun dx => forallb (f dx) offsets) offsets.

(** ** Further parts of the sketch *)

Section ProgramMore.
Context {T : Type} {AR : Arith T}.
Local Open Scope arith_scope.

(** [a != b] on doubles.  With the two orderings of the interface it is the
    failure of [a <= b && b <= a]: true when the values differ and when
    either is NaN (see [float_neqb] for binary64). *)
Definition neqb (a b : T) : bool := negb ((a <=? b) && (b <=? a)).

(** The remaining members of class Vector.  [subFrom], [multBy] and
    [normalize] mutate the receiver; its new value is returned. *)
Definition Vector_subFrom (this vec : Vector T) : Vector T :=
  mkVector (x this - x vec) (y this - y vec).

Definition Vector_multBy (this : Vector T) (scalar : T) : Vector T :=
  mkVector (x this * scalar) (y this * scalar).

Definition Vector_normalize (this : Vector T) : Vector T :=
  let m := Vector_mag this in
  if neqb m (of_int 0) then mkVector (x this / m) (y this / m) else this.

(** [lastFrameTime = currentTime] *)
Definition stamp (now : Z) (g : Sim T) : Sim T :=
  mkSim (moonAngle g) (moonX g) (moonY g) (moonTrail g) (spacecrafts g)
        (sparkleEffects g) (explosionEffects g) now.

(** What one [update] call does to a craft when the Moon is at (mX, mY),
    read off a call made with empty effect lists: the "remove me" flag, the
    craft afterwards, and the effects the call appended. *)
Definition blank_globals (mX mY : T) : Sim T :=
  mkSim (of_int 0) mX mY [] [] [] [] 0.

Definition craft_outcome (mX mY : T) (s : Spacecraft T)
  : bool * Spacecraft T * Sim T :=
  Spacecraft_update s (blank_globals mX mY).

Definition survivor (mX mY : T) (s : Spacecraft T) : list (Spacecraft T) :=
  if fst (fst (craft_outcome mX mY s)) then []
  else [snd (fst (craft_outcome mX mY s))].

Definition sparks (mX mY : T) (s : Spacecraft T) : list (SparkleEffect T) :=
  sparkleEffects (snd (craft_outcome mX mY s)).

Definition blasts (mX mY : T) (s : Spacecraft T) : list (ExplosionEffect T) :=
  explosionEffects (snd (craft_outcome mX mY s)).

(** Effects as they stand between frames. *)
Definition sparkle_fresh (e : SparkleEffect T) : Prop :=
  (1 <= sp_life e <= 19)%Z.

Definition explosion_fresh (e : ExplosionEffect T) : Prop :=
  (1 <= ex_life e <= 29)%Z
  /\ (ex_size e = 15 \/ ex_size e = 10)%Z
  /\ ex_alpha e = of_int 255 * (of_int (ex_life e) / of_int 30).

(** A craft whose bookkeeping agrees with its state: the trail ends at the
    position, the energy is that of the state, the flag that of the last
    energy step. *)
Definition craft_consistent (s : Spacecraft T) : Prop :=
  (exists older, trail s = older ++ [position s])
  /\ energy s = earth_energy (position s) (velocity s)
  /\ sparkle s = (lit_0_1 <? energy s - prevEnergy s).

Definition moon_recorded (g : Sim T) : Prop :=
  exists older, moonTrail g = older ++ [mkVector (moonX g) (moonY g)].

End ProgramMore.

(** The drawn radius and green level of an explosion of the given size and
    life, on binary64, checked to be in range. *)
Definition explosion_draw_ok (size life : Z) : bool :=
  let f := sub (T:=float) (of_int 1) (div (of_int life) (of_int 30)) in
  let r := to_int (mul (of_int size) f) in
  let gr := to_int (mul (of_int 255) f) in
  (0 <=? r) && (r <? size) && (0 <=? gr) && (gr <? 256).

Definition lives_1_to_29 : list Z := map Z.of_nat (seq 1 29).

(** A stand-in for [std::cos] and [std::sin] in the concrete binary64 runs
    (second-order around 0); the theorems hold for any pair of functions. *)
Definition small_angle_libm : Libm float := {|
  cos := fun a => PrimFloat.sub 1%float (PrimFloat.div (PrimFloat.mul a a) 2%float);
  sin := fun a => a
|}.

Definition real_vector : Vector R := mkVector 3%R 4%R.

(** ** Lists held as vectors *)

Section VectorLists.
Context {A : Type}.

Lemma assign_at_length (i : nat) (e : A) (v : list A) :
  (i < length v)%nat -> length (assign_at i e v) = length v.
Proof.
  intros Hi. unfold assign_at.
  rewrite length_app. cbn [length]. rewrite length_firstn, length_skipn. lia.
Qed.

Lemma erase_assign_at (i : nat) (e : A) (v : list A) :
  (i < length v)%nat -> erase_at i (assign_at i e v) = erase_at i v.
Proof.
  revert v. induction i as [|i IH]; intros [|a v] Hi; simpl in Hi; try lia.
  - reflexivity.
  - unfold erase_at, assign_at in *. cbn [firstn skipn app].
    f_equal. apply IH. lia.
Qed.

Lemma Forall_cut (P : A -> Prop) (i : nat) (v : list A) :
  Forall P v -> Forall P (firstn i v) /\ Forall P (skipn i v).
Proof.
  intros Hv. rewrite <- (firstn_skipn i v) in Hv.
  apply Forall_app in Hv. exact Hv.
Qed.

Lemma Forall_assign_at (P : A -> Prop) (i : nat) (e : A) (v : list A) :
  Forall P v -> P e -> Forall P (assign_at i e v).
Proof.
  intros Hv He. unfold assign_at.
  apply Forall_app. split.
  - apply (Forall_cut P i v Hv).
  - constructor; [exact He | apply (Forall_cut P (S i) v Hv)].
Qed.

Lemma Forall_erase_at (P : A -> Prop) (i : nat) (v : list A) :
  Forall P v -> Forall P (erase_at i v).
Proof.
  intros Hv. unfold erase_at.
  apply Forall_app. split;
    [apply (Forall_cut P i v Hv) | apply (Forall_cut P (S i) v Hv)].
Qed.

(** A vector cut at an index in range. *)
Lemma split_at_index (i : nat) (v : list A) (e : A) :
  nth_error v i = Some e ->
  v = firstn i v ++ e :: skipn (S i) v /\ length (firstn i v) = i.
Proof.
  revert v. induction i as [|i IH]; intros [|a v] H; simpl in H; try discriminate.
  - injection H as ->. split; reflexivity.
  - destruct (IH v H) as [E L]. split.
    + simpl. f_equal. exact E.
    + simpl. f_equal. exact L.
Qed.

End VectorLists.

Lemma wrap_int_small (z : Z) : INT_MIN <= z <= INT_MAX -> wrap_int z = z.
Proof.
  unfold INT_MIN, INT_MAX, wrap_int. intros H.
  rewrite Z.mod_small; lia.
Qed.

(** ** The spacecraft lifecycle, in any arithmetic *)

Section Lifecycle.
Context {T : Type} {AR : Arith T}.
Local Open Scope arith_scope.

Lemma push_trail_fifo (tr : list (Vector T)) (p : Vector T) :
  push_trail TRAIL_LENGTH tr p = fifo_push 50 tr p
  /\ push_trail MOON_TRAIL_LENGTH tr p = fifo_push 360 tr p.
Proof.
  unfold push_trail, fifo_push, TRAIL_LENGTH, MOON_TRAIL_LENGTH.
  rewrite length_app. simpl length.
  split.
  - destruct (Nat.ltb_spec (length tr) 50) as [H|H];
      destruct (Z.ltb_spec 50 (Z.of_nat (length tr + 1))) as [H'|H']; try lia;
      try reflexivity.
    destruct tr; [simpl in H; lia | reflexivity].
  - destruct (Nat.ltb_spec (length tr) 360) as [H|H];
      destruct (Z.ltb_spec 360 (Z.of_nat (length tr + 1))) as [H'|H']; try lia;
      try reflexivity.
    destruct tr; [simpl in H; lia | reflexivity].
Qed.

Lemma fifo_push_capped (cap : nat) (tr : list (Vector T)) (p : Vector T) :
  (0 < cap)%nat -> (length tr <= cap)%nat ->
  (length (fifo_push cap tr p) <= cap)%nat.
Proof.
  intros Hc Hl. unfold fifo_push.
  destruct (Nat.ltb_spec (length tr) cap) as [H|H].
  - rewrite length_app. simpl. lia.
  - rewrite length_app. simpl. destruct tr; simpl in *; lia.
Qed.

(** What [Spacecraft_update] does when a collision test succeeds. *)
Lemma Spacecraft_update_earth (s : Spacecraft T) (g : Sim T) :
  (distToEarth (position s) <=? of_int EARTH_RADIUS) = true ->
  Spacecraft_update s g =
  (true, s, with_explosion g (explosion_at (position s) 15)).
Proof. intros HE. unfold Spacecraft_update. rewrite HE. reflexivity. Qed.

Lemma Spacecraft_update_moon (s : Spacecraft T) (g : Sim T) :
  (distToEarth (position s) <=? of_int EARTH_RADIUS) = false ->
  (distToMoon (moonX g) (moonY g) (position s) <=? of_int MOON_RADIUS) = true ->
  Spacecraft_update s g =
  (true, s, with_explosion g (explosion_at (position s) 10)).
Proof. intros HE HM. unfold Spacecraft_update. rewrite HE, HM. reflexivity. Qed.

(** What [Spacecraft_update] does once both collision tests have failed. *)
Lemma Spacecraft_update_free (s : Spacecraft T) (g : Sim T) :
  (distToEarth (position s) <=? of_int EARTH_RADIUS) = false ->
  (distToMoon (moonX g) (moonY g) (position s) <=? of_int MOON_RADIUS) = false ->
  let pv := rk4_step (moonX g) (moonY g) (position s) (velocity s) in
  let e' := earth_energy (fst pv) (snd pv) in
  let tr' := push_trail TRAIL_LENGTH (trail s) (fst pv) in
  Spacecraft_update s g =
  if lit_0_1 <? e' - energy s
  then (false, mkSpacecraft (fst pv) (snd pv) tr' e' (energy s) true,
        with_sparkle g (mkSparkle (x (fst pv)) (y (fst pv)) 20))
  else (false, mkSpacecraft (fst pv) (snd pv) tr' e' (energy s) false, g).
Proof.
  intros HE HM. unfold Spacecraft_update. rewrite HE, HM.
  destruct (rk4_step (moonX g) (moonY g) (position s) (velocity s)) as [p v].
  simpl. destruct p as [px py]. reflexivity.
Qed.

(** C1. A craft whose position before the step is within the Earth's
    collision radius (distance to the screen centre <= EARTH_RADIUS) gets
    exactly one explosion (size 15, life 30) appended at its position and is
    reported destroyed, its own state untouched (no integration); failing
    that, within the Moon's radius (<= MOON_RADIUS) the same happens with
    size 10.  The reported flag is decided by the two tests on the position
    before the step alone. *)
Theorem collision_explodes_before_integration (s : Spacecraft T) (g : Sim T) :
  ((distToEarth (position s) <=? of_int EARTH_RADIUS) = true ->
   Spacecraft_update s g =
   (true, s,
    with_explosion g
      (mkExplosion (x (position s)) (y (position s)) 15 30 (of_int 255))))
  /\ ((distToEarth (position s) <=? of_int EARTH_RADIUS) = false ->
      (distToMoon (moonX g) (moonY g) (position s) <=? of_int MOON_RADIUS) = true ->
      Spacecraft_update s g =
      (true, s,
       with_explosion g
         (mkExplosion (x (position s)) (y (position s)) 10 30 (of_int 255))))
  /\ fst (fst (Spacecraft_update s g)) =
     (distToEarth (position s) <=? of_int EARTH_RADIUS)
     || (distToMoon (moonX g) (moonY g) (position s) <=? of_int MOON_RADIUS).
Proof.
  split; [|split].
  - intros HE. apply Spacecraft_update_earth, HE.
  - intros HE HM. apply Spacecraft_update_moon; assumption.
  - destruct (distToEarth (position s) <=? of_int EARTH_RADIUS) eqn:HE.
    + rewrite (Spacecraft_update_earth s g HE). reflexivity.
    + destruct (distToMoon (moonX g) (moonY g) (position s) <=? of_int MOON_RADIUS)
        eqn:HM.
      * rewrite (Spacecraft_update_moon s g HE HM). reflexivity.
      * rewrite (Spacecraft_update_free s g HE HM). cbv zeta.
        destruct (lit_0_1 <? _); reflexivity.
Qed.

End Lifecycle.

(** ** The reverse ageing loops *)

(** Both effect loops have the same shape: walk the indices downwards, age
    the element in place, erase it when it is spent.  The shape is analysed
    once, for any loop whose body and iteration obey the three equations. *)
Section ReverseLoop.
Context {A : Type}.
Variable step : A -> A.
Variable spent : A -> bool.
Variable body : nat -> list A -> list A.
Variable from : nat -> list A -> list A.

Hypothesis body_eq : forall i v,
  body i v =
  match nth_error v i with
  | None => v
  | Some e =>
      let e' := step e in
      let v' := assign_at i e' v in
      if spent e' then erase_at i v' else v'
  end.
Hypothesis from_O : forall v, from O v = v.
Hypothesis from_S : forall i v, from (S i) v = from i (body i v).

Lemma body_cut (i : nat) (v : list A) (e : A) :
  nth_error v i = Some e ->
  body i v =
  firstn i v ++ (if spent (step e) then [] else [step e]) ++ skipn (S i) v.
Proof.
  intros H. rewrite body_eq, H. cbv zeta.
  assert (Hi : (i < length v)%nat)
    by (apply nth_error_Some; rewrite H; discriminate).
  destruct (spent (step e)).
  - rewrite erase_assign_at by exact Hi. reflexivity.
  - reflexivity.
Qed.

Lemma from_prefix (n : nat) :
  forall v, (n <= length v)%nat ->
  from n v =
  flat_map (fun e => if spent (step e) then [] else [step e]) (firstn n v)
  ++ skipn n v.
Proof.
  induction n as [|i IH]; intros v Hn.
  - rewrite from_O. reflexivity.
  - rewrite from_S.
    destruct (nth_error v i) as [e|] eqn:He;
      [|apply nth_error_None in He; lia].
    destruct (split_at_index i v e He) as [Hv Hl].
    assert (Hfs : firstn (S i) v = firstn i v ++ [e]).
    { rewrite Hv at 1.
      replace (S i) with (length (firstn i v) + 1)%nat by lia.
      rewrite firstn_app_2. reflexivity. }
    rewrite (body_cut i v e He), Hfs.
    set (kept := if spent (step e) then [] else [step e]).
    set (post := skipn (S i) v).
    set (pre := firstn i v) in *.
    rewrite IH by (rewrite length_app, Hl; lia).
    rewrite firstn_app, Hl, Nat.sub_diag, firstn_O, app_nil_r.
    rewrite <- Hl at 1. rewrite firstn_all.
    rewrite skipn_app, Hl, Nat.sub_diag, skipn_O.
    rewrite <- Hl at 1. rewrite skipn_all. cbn [app].
    rewrite flat_map_app. cbn [flat_map]. rewrite app_nil_r.
    fold kept. rewrite <- app_assoc. reflexivity.
Qed.

(** A full pass ages every element once and keeps the ones not spent, in
    their order. *)
Lemma full_pass (v : list A) :
  from (length v) v =
  flat_map (fun e => if spent (step e) then [] else [step e]) v.
Proof.
  rewrite from_prefix by lia.
  rewrite firstn_all, skipn_all. apply app_nil_r.
Qed.

End ReverseLoop.

Section Effects.
Context {T : Type} {AR : Arith T}.
Local Open Scope arith_scope.

Lemma age_sparkles_pass (v : list (SparkleEffect T)) :
  age_sparkles v =
  flat_map (fun e => if (sp_life (age_sparkle e) <=? 0)%Z then []
                     else [age_sparkle e]) v.
Proof.
  unfold age_sparkles.
  apply (full_pass age_sparkle (fun e => (sp_life e <=? 0)%Z)
                   age_sparkle_at age_sparkles_from);
    reflexivity.
Qed.

Lemma age_explosions_pass (v : list (ExplosionEffect T)) :
  age_explosions v =
  flat_map (fun e => if (ex_life (age_explosion e) <=? 0)%Z then []
                     else [age_explosion e]) v.
Proof.
  unfold age_explosions.
  apply (full_pass age_explosion (fun e => (ex_life e <=? 0)%Z)
                   age_explosion_at age_explosions_from);
    reflexivity.
Qed.











End Effects.

(** ** Trails *)

Section Trails.
Context {T : Type} {AR : Arith T} {LM : Libm T}.
Local Open Scope arith_scope.

(** [Spacecraft_update] leaves the craft list and the Moon's trail alone and
    keeps the craft's own trail within the cap. *)
Lemma Spacecraft_update_trails (s : Spacecraft T) (g : Sim T) :
  let r := Spacecraft_update s g in
  spacecrafts (snd r) = spacecrafts g
  /\ moonTrail (snd r) = moonTrail g
  /\ trail (snd (fst r)) =
     (if fst (fst r) then trail s
      else fifo_push 50 (trail s) (position (snd (fst r)))).
Proof.
  cbv zeta.
  destruct (distToEarth (position s) <=? of_int EARTH_RADIUS) eqn:HE.
  - rewrite (Spacecraft_update_earth s g HE).
    repeat split; reflexivity.
  - destruct (distToMoon (moonX g) (moonY g) (position s) <=? of_int MOON_RADIUS)
      eqn:HM.
    + rewrite (Spacecraft_update_moon s g HE HM).
      repeat split; reflexivity.
    + rewrite (Spacecraft_update_free s g HE HM). cbv zeta.
      destruct (lit_0_1 <? _); cbn [fst snd trail position spacecrafts moonTrail];
        repeat split; try reflexivity;
        apply (proj1 (push_trail_fifo _ _)).
Qed.

Lemma update_spacecraft_at_capped (i : nat) (g : Sim T) :
  trails_capped g -> trails_capped (update_spacecraft_at i g).
Proof.
  intros [Hs Hm]. unfold update_spacecraft_at.
  destruct (nth_error (spacecrafts g) i) as [s|] eqn:Hi; [|split; assumption].
  pose proof (Spacecraft_update_trails s g) as H. cbv zeta in H.
  destruct (Spacecraft_update s g) as [[destroyed s'] g'].
  cbn [fst snd] in H. destruct H as (Hsc & Hmt & Htr).
  assert (Hs' : (length (trail s') <= 50)%nat).
  { assert (Hin : (length (trail s) <= 50)%nat).
    { apply nth_error_In in Hi.
      exact (proj1 (Forall_forall _ _) Hs s Hi). }
    rewrite Htr. destruct destroyed; [exact Hin|].
    apply fifo_push_capped; [lia | exact Hin]. }
  split; cbn [spacecrafts moonTrail].
  - rewrite Hsc. destruct destroyed.
    + apply Forall_erase_at, Forall_assign_at; assumption.
    + apply Forall_assign_at; assumption.
  - rewrite Hmt. exact Hm.
Qed.

Lemma update_spacecrafts_from_capped (n : nat) :
  forall g, trails_capped g -> trails_capped (update_spacecrafts_from n g).
Proof.
  induction n as [|i IH]; intros g Hg; simpl.
  - exact Hg.
  - apply IH, update_spacecraft_at_capped, Hg.
Qed.

Lemma updateMoonPosition_trail (g : Sim T) :
  moonTrail (updateMoonPosition g) =
  fifo_push 360 (moonTrail g)
    (mkVector (moonX (updateMoonPosition g)) (moonY (updateMoonPosition g))).
Proof.
  unfold updateMoonPosition. cbn [moonTrail moonX moonY].
  apply (proj2 (push_trail_fifo _ _)).
Qed.

Lemma updateMoonPosition_capped (g : Sim T) :
  trails_capped g -> trails_capped (updateMoonPosition g).
Proof.
  intros [Hs Hm]. split.
  - exact Hs.
  - rewrite updateMoonPosition_trail. apply fifo_push_capped; [lia | exact Hm].
Qed.

Lemma addSpacecraft_capped (tx ty : Z) (g : Sim T) :
  trails_capped g -> trails_capped (addSpacecraft tx ty g).
Proof.
  intros [Hs Hm]. unfold addSpacecraft.
  destruct (dEarth tx ty <? of_int EARTH_RADIUS); split;
    cbn [spacecrafts moonTrail]; try exact Hm.
  - constructor.
  - apply Forall_app. split; [exact Hs|].
    constructor; [simpl; lia | constructor].
Qed.

Lemma tick_capped (touch : option (Z * Z)) (g : Sim T) :
  trails_capped g -> trails_capped (tick touch g).
Proof.
  intros Hg. unfold tick.
  set (g1 := match touch with Some (tx, ty) => addSpacecraft tx ty g | None => g end).
  assert (H1 : trails_capped g1).
  { subst g1. destruct touch as [[tx ty]|]; [apply addSpacecraft_capped|]; exact Hg. }
  set (g2 := updateMoonPosition _).
  assert (H2 : trails_capped g2).
  { subst g2. apply updateMoonPosition_capped. exact H1. }
  assert (H3 : trails_capped (update_spacecrafts g2)).
  { apply update_spacecrafts_from_capped, H2. }
  exact H3.
Qed.

Lemma loop_capped (now : Z) (touch : option (Z * Z)) (g : Sim T) :
  trails_capped g -> trails_capped (fst (loop now touch g)).
Proof.
  intros Hg. unfold loop.
  destruct (ulong_sub now (lastFrameTime g) <? 33)%Z; cbn [fst].
  - exact Hg.
  - apply tick_capped. exact Hg.
Qed.

Lemma run_from_capped (calls : list (Z * option (Z * Z))) :
  forall g, trails_capped g -> trails_capped (run_from g calls).
Proof.
  induction calls as [|[now touch] rest IH]; intros g Hg; simpl.
  - exact Hg.
  - apply IH, loop_capped, Hg.
Qed.

(** C8. In every state the sketch reaches ([setup], then any sequence of
    [loop] calls with any clock values and taps) each spacecraft's trail
    holds at most 50 points and the Moon's trail at most 360.  Both trails
    are first-in first-out: the new point goes to the back, and the front
    point is dropped when the cap is already reached. *)
Theorem trails_stay_capped (calls : list (Z * option (Z * Z))) :
  trails_capped (run calls)
  /\ (forall g : Sim T,
        moonTrail (updateMoonPosition g) =
        fifo_push 360 (moonTrail g)
          (mkVector (moonX (updateMoonPosition g))
                    (moonY (updateMoonPosition g))))
  /\ (forall (s : Spacecraft T) (g : Sim T),
        let r := Spacecraft_update s g in
        trail (snd (fst r)) =
        (if fst (fst r) then trail s
         else fifo_push 50 (trail s) (position (snd (fst r))))).
Proof.
  split; [|split].
  - unfold run. apply run_from_capped.
    unfold setup. apply updateMoonPosition_capped.
    split; [constructor | simpl; lia].
  - exact updateMoonPosition_trail.
  - intros s g. exact (proj2 (proj2 (Spacecraft_update_trails s g))).
Qed.

End Trails.

(** ** binary64: facts about the arithmetic the sketch runs on *)

Section Binary64.
Local Open Scope arith_scope.

(** The decimal literals of the source are the one-rounding ratios used for
    them. *)
Lemma float_literals :
  lit_0_5 = 0.5%float
  /\ lit_0_1 = 0x1.999999999999ap-4%float
  /\ lit_0_005 = 0x1.47ae147ae147bp-8%float
  /\ of_int (-50) = (-50)%float
  /\ float_to_int 7.75%float = 7%Z
  /\ float_to_int (-7.75)%float = (-7)%Z.
Proof. vm_compute. repeat split; reflexivity. Qed.

Lemma SFltb_asym (a b : spec_float) : SFltb a b = true -> SFltb b a = false.
Proof.
  unfold SFltb.
  destruct a as [sa|sa| |sa ma ea], b as [sb|sb| |sb mb eb]; simpl;
    try destruct sa; try destruct sb; simpl; try discriminate; try reflexivity.
  - rewrite (Z.compare_antisym ea eb).
    change (PosDef.Pos.compare_cont Eq mb ma) with (Pos.compare mb ma).
    change (PosDef.Pos.compare_cont Eq ma mb) with (Pos.compare ma mb).
    rewrite (Pos.compare_antisym ma mb).
    destruct (ea ?= eb)%Z; simpl; try discriminate; try reflexivity.
    destruct (ma ?= mb)%positive; simpl; try discriminate; reflexivity.
  - rewrite (Z.compare_antisym ea eb).
    change (PosDef.Pos.compare_cont Eq mb ma) with (Pos.compare mb ma).
    change (PosDef.Pos.compare_cont Eq ma mb) with (Pos.compare ma mb).
    rewrite (Pos.compare_antisym ma mb).
    destruct (ea ?= eb)%Z; simpl; try discriminate; try reflexivity.
    destruct (ma ?= mb)%positive; simpl; try discriminate; reflexivity.
Qed.

(** [<] on doubles is asymmetric (NaN included: it compares false). *)
Lemma float_ltb_asym (a b : float) : (a <? b) = true -> (b <? a) = false.
Proof.
  change ((PrimFloat.ltb a b) = true -> (PrimFloat.ltb b a) = false).
  rewrite !FloatAxioms.ltb_spec. apply SFltb_asym.
Qed.

Lemma binary_round_aux_opp (prec emax : Z) (s : bool) (m e : Z) (l : location) :
  binary_round_aux prec emax (negb s) m e l =
  SFopp (binary_round_aux prec emax s m e l).
Proof.
  unfold binary_round_aux.
  destruct (shr_fexp prec emax m e l) as [mrs' e'].
  destruct (shr_fexp prec emax _ e' loc_Exact) as [mrs'' e''].
  destruct (shr_m mrs''); try reflexivity.
  destruct (e'' <=? emax - prec)%Z; reflexivity.
Qed.

Lemma SFdiv_opp (prec emax : Z) (a b : spec_float) :
  SFdiv prec emax (SFopp a) b = SFopp (SFdiv prec emax a b).
Proof.
  destruct a as [sa|sa| |sa ma ea], b as [sb|sb| |sb mb eb]; simpl;
    try reflexivity; try (rewrite <- negb_xorb_l; reflexivity).
  destruct (SFdiv_core_binary prec emax (Z.pos ma) ea (Z.pos mb) eb)
    as [[mz ez] lz].
  rewrite <- negb_xorb_l. apply binary_round_aux_opp.
Qed.

(** Rounding is symmetric in sign: negating the dividend negates the
    quotient, bit for bit. *)
Lemma float_opp_div (a b : float) : (- a) / b = - (a / b).
Proof.
  change (PrimFloat.div (PrimFloat.opp a) b = PrimFloat.opp (PrimFloat.div a b)).
  apply Prim2SF_inj.
  rewrite FloatAxioms.div_spec, !FloatAxioms.opp_spec, FloatAxioms.div_spec.
  apply SFdiv_opp.
Qed.

Lemma offsets_cover (d : Z) : (-15 <= d <= 15)%Z -> In d offsets.
Proof.
  intros H. unfold offsets.
  replace d with (Z.of_nat (Z.to_nat (d + 15)) - 15)%Z by lia.
  apply (in_map (fun n => Z.of_nat n - 15)%Z). apply in_seq. lia.
Qed.

Lemma all_offsets_at (f : Z -> Z -> bool) (dx dy : Z) :
  all_offsets f = true ->
  (-15 <= dx <= 15)%Z -> (-15 <= dy <= 15)%Z -> f dx dy = true.
Proof.
  intros H Hx Hy. unfold all_offsets in H.
  rewrite forallb_forall in H.
  specialize (H dx (offsets_cover dx Hx)).
  rewrite forallb_forall in H.
  exact (H dy (offsets_cover dy Hy)).
Qed.

Lemma rim_taps_checked : all_offsets rim_tap_ok = true.
Proof. vm_compute. reflexivity. Qed.

Lemma inner_taps_checked : all_offsets inner_tap_ok = true.
Proof. vm_compute. reflexivity. Qed.

End Binary64.

(** ** Taps (binary64) *)

Section Taps.
Local Open Scope arith_scope.

(** A tap given by its offset from the centre. *)
Lemma tap_offsets (tx ty : Z) (bound : Z) :
  ((tx - 160) * (tx - 160) + (ty - 120) * (ty - 120) <= bound)%Z ->
  (bound <= 225)%Z ->
  (-15 <= tx - 160 <= 15)%Z /\ (-15 <= ty - 120 <= 15)%Z
  /\ tx = (CENTER_X + (tx - 160))%Z /\ ty = (CENTER_Y + (ty - 120))%Z.
Proof.
  intros H Hb. change CENTER_X with 160%Z. change CENTER_Y with 120%Z.
  set (a := (tx - 160)%Z) in *. set (b := (ty - 120)%Z) in *.
  assert (Ha : (0 <= a * a)%Z) by apply Z.square_nonneg.
  assert (Hb' : (0 <= b * b)%Z) by apply Z.square_nonneg.
  assert (Sq : forall c : Z, (c * c <= 225 -> -15 <= c <= 15)%Z).
  { intros c Hc.
    destruct (Z_lt_le_dec c (-15)) as [L|L]; [nia|].
    destruct (Z_lt_le_dec 15 c) as [U|U]; [nia|]. lia. }
  split; [apply Sq; lia|]. split; [apply Sq; lia|].
  subst a b. split; lia.
Qed.

(** The loop body applied to a craft that [update] reports destroyed and
    leaves unchanged: the craft is erased from the list. *)
Lemma update_spacecraft_at_destroyed {T : Type} {AR : Arith T}
  (i : nat) (g : Sim T) (s : Spacecraft T) (e : ExplosionEffect T) :
  nth_error (spacecrafts g) i = Some s ->
  Spacecraft_update s g = (true, s, with_explosion g e) ->
  update_spacecraft_at i g =
  mkSim (moonAngle g) (moonX g) (moonY g) (moonTrail g)
        (erase_at i (spacecrafts g)) (sparkleEffects g)
        (explosionEffects g ++ [e]) (lastFrameTime g).
Proof.
  intros Hi Hu. unfold update_spacecraft_at. rewrite Hi, Hu.
  unfold with_explosion.
  cbn [moonAngle moonX moonY moonTrail spacecrafts sparkleEffects
       explosionEffects lastFrameTime].
  rewrite erase_assign_at
    by (apply nth_error_Some; rewrite Hi; discriminate).
  reflexivity.
Qed.

(** C6, as the code has it.  A tap strictly inside the Earth's disc (offset
    from the centre of squared length below EARTH_RADIUS squared) empties the
    spacecraft list and the sparkle list; the explosions, the Moon and the
    frame timer are as before, and no spacecraft is created. *)
Theorem tap_strictly_inside_earth_resets (tx ty : Z) (g : Sim float) :
  ((tx - 160) * (tx - 160) + (ty - 120) * (ty - 120) < 225)%Z ->
  addSpacecraft tx ty g = cleared g
  /\ spacecrafts (addSpacecraft tx ty g) = []
  /\ sparkleEffects (addSpacecraft tx ty g) = []
  /\ explosionEffects (addSpacecraft tx ty g) = explosionEffects g.
Proof.
  intros H.
  destruct (tap_offsets tx ty 224) as (Hx & Hy & Ex & Ey); [lia | lia |].
  pose proof (all_offsets_at inner_tap_ok _ _ inner_taps_checked Hx Hy) as C.
  unfold inner_tap_ok in C. rewrite <- Ex, <- Ey in C.
  destruct (Z.ltb_spec ((tx - 160) * (tx - 160) + (ty - 120) * (ty - 120)) 225)
    as [_|F]; [|lia].
  cbn [negb orb] in C.
  assert (E : addSpacecraft tx ty g = cleared g).
  { unfold addSpacecraft. rewrite C. reflexivity. }
  rewrite E. repeat split; reflexivity.
Qed.

(** C7.  A tap whose computed distance from the centre exceeds EARTH_RADIUS
    appends exactly one spacecraft: at the tap, with empty trail, and with
    velocity the quarter turn of the unit vector from the centre to the tap
    scaled by the speed 1 + 3 * (distance / (WIDTH / 2)).  For the tap 50
    pixels to the right of the centre the velocity is (0, -1.9375): along the
    y axis, of magnitude 1 + 3 * (50 / 160). *)
Theorem tap_outside_launches_tangentially (tx ty : Z) (g : Sim float) :
  (of_int EARTH_RADIUS <? dEarth (T:=float) tx ty) = true ->
  addSpacecraft tx ty g =
  with_spacecraft g
    (mkSpacecraft
       (mkVector (of_int tx) (of_int ty))
       (Vector_mult (quarter_turn (tap_direction tx ty)) (tap_speed tx ty))
       [] (of_int 0) (of_int 0) false)
  /\ (let launched :=
        mkSpacecraft (mkVector (of_int (CENTER_X + 50)) (of_int CENTER_Y))
                     (mkVector 0%float (-1.9375)%float)
                     [] (of_int 0) (of_int 0) false in
      addSpacecraft (CENTER_X + 50) CENTER_Y g = with_spacecraft g launched
      /\ Vector_mag (velocity launched) = of_int 1 + of_int 3 * (of_int 50 / of_int CENTER_X)
      /\ Vector_mag (velocity launched) = 1.9375%float).
Proof.
  intros H. split.
  - unfold addSpacecraft. rewrite (float_ltb_asym _ _ H).
    unfold with_spacecraft, Spacecraft_new, Vector_mult, quarter_turn,
      tap_direction, tap_speed, Vector_mag.
    cbn [x y]. rewrite float_opp_div. reflexivity.
  - cbv zeta. split; [|split].
    + unfold addSpacecraft.
      replace (dEarth (CENTER_X + 50) CENTER_Y <? of_int EARTH_RADIUS)
        with false by (vm_compute; reflexivity).
      unfold with_spacecraft, Spacecraft_new. reflexivity.
    + vm_compute. reflexivity.
    + vm_compute. reflexivity.
Qed.

(** C10.  A tap at distance exactly EARTH_RADIUS from the centre (offset of
    squared length 225) does not reset: the strict test of [addSpacecraft]
    fails and one spacecraft is appended at the tap.  That craft's first
    [update], in whatever state of the globals, reports destroyed, appends
    one explosion of size 15 and life 30 at the tap and leaves the craft as
    created (no integration); the loop body then erases it. *)
Theorem rim_tap_creates_doomed_craft (tx ty : Z) (g : Sim float) :
  ((tx - 160) * (tx - 160) + (ty - 120) * (ty - 120) = 225)%Z ->
  (dEarth (T:=float) tx ty <? of_int EARTH_RADIUS) = false
  /\ exists s : Spacecraft float,
      addSpacecraft tx ty g = with_spacecraft g s
      /\ position s = mkVector (of_int tx) (of_int ty)
      /\ forall g' : Sim float,
          Spacecraft_update s g' =
          (true, s,
           with_explosion g'
             (mkExplosion (of_int tx) (of_int ty) 15 30 (of_int 255)))
          /\ forall i : nat,
              nth_error (spacecrafts g') i = Some s ->
              update_spacecraft_at i g' =
              mkSim (moonAngle g') (moonX g') (moonY g') (moonTrail g')
                    (erase_at i (spacecrafts g')) (sparkleEffects g')
                    (explosionEffects g'
                     ++ [mkExplosion (of_int tx) (of_int ty) 15 30 (of_int 255)])
                    (lastFrameTime g').
Proof.
  intros H.
  destruct (tap_offsets tx ty 225) as (Hx & Hy & Ex & Ey); [lia | lia |].
  pose proof (all_offsets_at rim_tap_ok _ _ rim_taps_checked Hx Hy) as C.
  unfold rim_tap_ok in C. rewrite <- Ex, <- Ey in C.
  destruct (Z.eqb_spec ((tx - 160) * (tx - 160) + (ty - 120) * (ty - 120)) 225)
    as [_|F]; [|lia].
  cbn [negb orb] in C. apply andb_true_iff in C. destruct C as [C1 C2].
  apply negb_true_iff in C1.
  split; [exact C1|].
  unfold addSpacecraft. rewrite C1.
  eexists. split; [reflexivity|]. split; [reflexivity|].
  intros g'.
  match goal with |- Spacecraft_update ?s _ = _ /\ _ =>
    assert (U : Spacecraft_update s g' =
                (true, s,
                 with_explosion g'
                   (mkExplosion (of_int tx) (of_int ty) 15 30 (of_int 255))))
      by (apply Spacecraft_update_earth; exact C2)
  end.
  split; [exact U|].
  intros i Hi. apply (update_spacecraft_at_destroyed i g' _ _ Hi U).
Qed.

End Taps.

(** ** Exact arithmetic: the mathematics the code spells out *)

Section Exact.
Local Open Scope R_scope.

Lemma Rleb_false (a b : R) : b < a -> Rleb a b = false.
Proof. intros H. unfold Rleb. destruct (Rle_dec a b); [lra | reflexivity]. Qed.

Lemma Rltb_true_iff (a b : R) : Rltb a b = true <-> a < b.
Proof.
  unfold Rltb. destruct (Rlt_dec a b); split; intros H;
    try reflexivity; try assumption; try discriminate; contradiction.
Qed.

Lemma sqrt_squares (a b : R) :
  R_sqrt.sqrt (a ^ 2 + b ^ 2) = R_sqrt.sqrt (a * a + b * b).
Proof. f_equal. ring. Qed.

(** [calculateAcceleration] is the described field. *)
Lemma accel_real (mX mY : R) (p : Vector R) :
  pair_of (calculateAcceleration mX mY p) =
  Described.gravity (mX, mY) (pair_of p).
Proof.
  destruct p as [px py].
  unfold calculateAcceleration, Described.gravity, Described.pull,
    Described.vplus, Described.vminus, Described.norm, pair_of,
    Vector_add, Vector_mult, Vector_mag, MU_EARTH, MU_MOON.
  cbn [x y fst snd add sub mul div sqrt of_int real_arith].
  change (IZR CENTER_X) with 160. change (IZR CENTER_Y) with 120.
  rewrite !sqrt_squares.
  set (m := R_sqrt.sqrt ((160 - px) * (160 - px) + (120 - py) * (120 - py))).
  set (n := R_sqrt.sqrt ((mX - px) * (mX - px) + (mY - py) * (mY - py))).
  replace (m ^ 3) with (m * m * m) by ring.
  replace (n ^ 3) with (n * n * n) by ring.
  unfold Rdiv. f_equal; ring.
Qed.

Lemma pair_of_add (a b : Vector R) :
  pair_of (Vector_add a b) = Described.vplus (pair_of a) (pair_of b).
Proof. reflexivity. Qed.

Lemma pair_of_half (a : Vector R) :
  pair_of (Vector_mult a lit_0_5) = Described.vscale (1 / 2) (pair_of a).
Proof.
  unfold pair_of, Vector_mult, Described.vscale, lit_0_5.
  cbn [x y fst snd mul div of_int real_arith]. f_equal; ring.
Qed.

Lemma pair_of_unit (a : Vector R) :
  pair_of (Vector_mult a (of_int 1)) = pair_of a.
Proof.
  unfold pair_of, Vector_mult.
  cbn [x y mul of_int real_arith]. f_equal; ring.
Qed.

Lemma vscale_one (a : Described.R2) : Described.vscale 1 a = a.
Proof. destruct a. unfold Described.vscale. cbn [fst snd]. f_equal; ring. Qed.

(** Lines 161-197 are one classical RK4 step of size 1. *)
Lemma rk4_step_real (mX mY : R) (pos vel : Vector R) :
  (pair_of (fst (rk4_step mX mY pos vel)),
   pair_of (snd (rk4_step mX mY pos vel))) =
  Described.classical_rk4
    (Described.orbit_ode (Described.gravity (mX, mY))) 1
    (pair_of pos, pair_of vel).
Proof.
  unfold rk4_step, Described.classical_rk4, Described.orbit_ode,
    Described.pplus, Described.pscale.
  cbv zeta. cbn [fst snd].
  set (acc := calculateAcceleration mX mY).
  set (grav := Described.gravity (mX, mY)).
  assert (G : forall p, grav (pair_of p) = pair_of (acc p))
    by (intros p; symmetry; apply accel_real).
  (* stage 1 *)
  rewrite (G pos). set (k1v := acc pos).
  (* stage 2 *)
  set (p2 := Vector_add pos (Vector_mult (Vector_mult vel (of_int 1)) lit_0_5)).
  replace (Described.vplus (pair_of pos)
             (Described.vscale (1 / 2) (pair_of vel)))
    with (pair_of p2)
    by (subst p2; rewrite pair_of_add, pair_of_half, pair_of_unit; reflexivity).
  rewrite (G p2). set (k2v := acc p2).
  set (v2 := Vector_add vel (Vector_mult k1v lit_0_5)).
  replace (Described.vplus (pair_of vel)
             (Described.vscale (1 / 2) (pair_of k1v)))
    with (pair_of v2)
    by (subst v2; rewrite pair_of_add, pair_of_half; reflexivity).
  (* stage 3 *)
  set (p3 := Vector_add pos (Vector_mult (Vector_mult v2 (of_int 1)) lit_0_5)).
  replace (Described.vplus (pair_of pos)
             (Described.vscale (1 / 2) (pair_of v2)))
    with (pair_of p3)
    by (subst p3; rewrite pair_of_add, pair_of_half, pair_of_unit; reflexivity).
  rewrite (G p3). set (k3v := acc p3).
  set (v3 := Vector_add vel (Vector_mult k2v lit_0_5)).
  replace (Described.vplus (pair_of vel)
             (Described.vscale (1 / 2) (pair_of k2v)))
    with (pair_of v3)
    by (subst v3; rewrite pair_of_add, pair_of_half; reflexivity).
  (* stage 4 *)
  set (p4 := Vector_add pos (Vector_mult v3 (of_int 1))).
  replace (Described.vplus (pair_of pos) (Described.vscale 1 (pair_of v3)))
    with (pair_of p4)
    by (subst p4; rewrite pair_of_add, pair_of_unit, vscale_one; reflexivity).
  rewrite (G p4). set (k4v := acc p4).
  set (v4 := Vector_add vel k3v).
  replace (Described.vplus (pair_of vel) (Described.vscale 1 (pair_of k3v)))
    with (pair_of v4)
    by (subst v4; rewrite pair_of_add, vscale_one; reflexivity).
  (* the weighted sum *)
  destruct pos as [px py], vel as [vx vy], k1v as [a1 b1], k2v as [a2 b2],
    k3v as [a3 b3], k4v as [a4 b4], v2 as [c2 d2], v3 as [c3 d3],
    v4 as [c4 d4].
  unfold pair_of, Vector_addTo, Vector_add, Vector_mult, one_sixth,
    Described.vplus, Described.vscale.
  cbn [x y fst snd add mul div of_int real_arith].
  f_equal; f_equal; field.
Qed.

(** C2.  For a craft that passes both collision tests, the position and
    velocity after [update] are those of one step of the classical
    fourth-order Runge-Kutta method with dt = 1 for dr/dt = v, dv/dt = a(r)
    (stages k1..k4, increments (k1 + 2 k2 + 2 k3 + k4) / 6), where a(r), the
    value of [calculateAcceleration], is the sum over Earth and Moon of
    mu * r_vec / |r_vec|^3.  Stated in exact arithmetic: on doubles each
    operation of the same formula is rounded. *)
Theorem update_is_classical_rk4 (s : Spacecraft R) (g : Sim R) :
  (distToEarth (position s) <=? of_int EARTH_RADIUS)%A = false ->
  (distToMoon (moonX g) (moonY g) (position s) <=? of_int MOON_RADIUS)%A = false ->
  let s' := snd (fst (Spacecraft_update s g)) in
  (pair_of (position s'), pair_of (velocity s')) =
  Described.classical_rk4
    (Described.orbit_ode (Described.gravity (moonX g, moonY g))) 1
    (pair_of (position s), pair_of (velocity s))
  /\ forall p : Vector R,
      pair_of (calculateAcceleration (moonX g) (moonY g) p) =
      Described.gravity (moonX g, moonY g) (pair_of p).
Proof.
  intros HE HM s'. split.
  - subst s'. rewrite (Spacecraft_update_free s g HE HM). cbv zeta.
    rewrite <- rk4_step_real.
    destruct (lit_0_1 <? _)%A; reflexivity.
  - intros p. apply accel_real.
Qed.

Lemma earth_energy_real (pos vel : Vector R) :
  earth_energy pos vel =
  Described.specific_orbital_energy (pair_of pos) (pair_of vel).
Proof.
  destruct pos as [px py], vel as [vx vy].
  unfold earth_energy, Described.specific_orbital_energy, Described.norm,
    Described.vminus, pair_of, Vector_mag, pow2, lit_0_5, MU_EARTH.
  cbn [x y fst snd add sub mul div sqrt of_int real_arith].
  change (IZR CENTER_X) with 160. change (IZR CENTER_Y) with 120.
  rewrite sqrt_squares.
  assert (Q : 0 <= vx * vx + vy * vy) by nra.
  replace (1 / 2 * R_sqrt.sqrt (vx * vx + vy * vy)
           * R_sqrt.sqrt (vx * vx + vy * vy))
    with (1 / 2 * (R_sqrt.sqrt (vx * vx + vy * vy)
                   * R_sqrt.sqrt (vx * vx + vy * vy))) by ring.
  rewrite (sqrt_sqrt _ Q). f_equal. field.
Qed.

Lemma orbitColor_bound {T : Type} {AR : Arith T} (s : Spacecraft T) :
  (orbitColor s = BOUND_ORBIT_COLOR <-> (energy s <? of_int 0)%A = true)
  /\ (orbitColor s = ESCAPE_ORBIT_COLOR <-> (energy s <? of_int 0)%A = false).
Proof.
  unfold orbitColor.
  destruct (energy s <? of_int 0)%A; split; split; intros H;
    try reflexivity; try discriminate H.
Qed.

(** C5.  After an update that passed both collision tests the craft's energy
    is the Earth-centred specific orbital energy |v|^2 / 2 - mu_Earth /
    r_Earth of the state after the step (exact arithmetic).  The orbit
    colour used when drawing is a function of the current energy alone:
    bound exactly when energy < 0, escape otherwise (in any arithmetic). *)
Theorem energy_is_earth_centred_orbital_energy :
  (forall (s : Spacecraft R) (g : Sim R),
      (distToEarth (position s) <=? of_int EARTH_RADIUS)%A = false ->
      (distToMoon (moonX g) (moonY g) (position s) <=? of_int MOON_RADIUS)%A
      = false ->
      let s' := snd (fst (Spacecraft_update s g)) in
      energy s' =
      Described.specific_orbital_energy
        (pair_of (position s')) (pair_of (velocity s')))
  /\ (forall (T : Type) (AR : Arith T) (s : Spacecraft T),
        (orbitColor s = BOUND_ORBIT_COLOR <-> (energy s <? of_int 0)%A = true)
        /\ (orbitColor s = ESCAPE_ORBIT_COLOR
            <-> (energy s <? of_int 0)%A = false))
  /\ (forall s : Spacecraft R,
        orbitColor s = BOUND_ORBIT_COLOR <-> energy s < 0).
Proof.
  split; [|split].
  - intros s g HE HM s'. subst s'.
    rewrite (Spacecraft_update_free s g HE HM). cbv zeta.
    destruct (lit_0_1 <? _)%A; cbn [fst snd energy position velocity];
      apply earth_energy_real.
  - intros T AR s. apply orbitColor_bound.
  - intros s. rewrite (proj1 (orbitColor_bound s)).
    apply (Rltb_true_iff (energy s) 0).
Qed.


(** The sample craft is 130 pixels from the Earth and from the Moon. *)
Lemma real_craft_clear :
  (distToEarth (position real_craft) <=? of_int EARTH_RADIUS)%A = false
  /\ (distToMoon (moonX real_globals) (moonY real_globals) (position real_craft)
      <=? of_int MOON_RADIUS)%A = false.
Proof.
  assert (E : distToEarth (position real_craft) = 130).
  { unfold distToEarth, pow2, real_craft, Spacecraft_new.
    cbn [position x y add sub mul sqrt of_int real_arith].
    change (IZR CENTER_X) with 160. change (IZR CENTER_Y) with 120.
    replace ((210 - 160) * (210 - 160) + (0 - 120) * (0 - 120))
      with (Rsqr 130) by (unfold Rsqr; ring).
    apply sqrt_Rsqr. lra. }
  assert (M : distToMoon (moonX real_globals) (moonY real_globals)
                (position real_craft) = 130).
  { unfold distToMoon, pow2, real_craft, real_globals, Spacecraft_new.
    cbn [position moonX moonY x y add sub mul sqrt of_int real_arith].
    replace ((210 - 260) * (210 - 260) + (0 - 120) * (0 - 120))
      with (Rsqr 130) by (unfold Rsqr; ring).
    apply sqrt_Rsqr. lra. }
  rewrite E, M. cbn [leb of_int real_arith].
  split; apply Rleb_false.
  - change (IZR EARTH_RADIUS) with 15. lra.
  - change (IZR MOON_RADIUS) with 5. lra.
Qed.

(** One pass over the sample explosion keeps it, one frame older. *)
Lemma real_explosion_aged :
  In (age_explosion real_explosion) (age_explosions [real_explosion]).
Proof.
  rewrite age_explosions_pass. cbn [flat_map].
  change (ex_life (age_explosion real_explosion)) with 29%Z.
  cbn [Z.leb Z.compare app]. left. reflexivity.
Qed.

End Exact.

(** ** Concrete evaluations *)

Section Concrete.
Local Open Scope arith_scope.

(** C1 at a craft 10 pixels from the Earth's centre and at a craft 2 pixels
    from the Moon's centre. *)
Lemma collision_explodes_before_integration_witness :
  Spacecraft_update craft_in_earth sample_globals =
  (true, craft_in_earth,
   with_explosion sample_globals
     (mkExplosion 170%float 120%float 15 30 255%float))
  /\ Spacecraft_update craft_in_moon sample_globals =
     (true, craft_in_moon,
      with_explosion sample_globals
        (mkExplosion 258%float 120%float 10 30 255%float)).
Proof.
  assert (HE : (distToEarth (position craft_in_earth) <=? of_int EARTH_RADIUS)
               = true) by (vm_compute; reflexivity).
  assert (HE' : (distToEarth (position craft_in_moon) <=? of_int EARTH_RADIUS)
                = false) by (vm_compute; reflexivity).
  assert (HM : (distToMoon (moonX sample_globals) (moonY sample_globals)
                  (position craft_in_moon) <=? of_int MOON_RADIUS) = true)
    by (vm_compute; reflexivity).
  split.
  - exact (proj1 (collision_explodes_before_integration
                    craft_in_earth sample_globals) HE).
  - exact (proj1 (proj2 (collision_explodes_before_integration
                           craft_in_moon sample_globals)) HE' HM).
Defined.


(** C6 as written fails on the rim: the tap (175, 120) is at distance 15,
    within the collision radius, yet the craft and the sparkle of
    [busy_globals] stay and a second craft is added. *)
Lemma tap_on_earth_rim_does_not_reset :
  (dEarth (T:=float) 175 120 <=? of_int EARTH_RADIUS) = true
  /\ length (spacecrafts (addSpacecraft 175 120 busy_globals)) = 2%nat
  /\ length (sparkleEffects (addSpacecraft 175 120 busy_globals)) = 1%nat.
Proof. vm_compute. repeat split; reflexivity. Qed.

(** C6 (as the code has it) at a tap 5 pixels right of the centre. *)
Lemma tap_strictly_inside_earth_resets_witness :
  ((165 - 160) * (165 - 160) + (120 - 120) * (120 - 120) < 225)%Z
  /\ addSpacecraft 165 120 busy_globals = cleared busy_globals.
Proof.
  assert (H : ((165 - 160) * (165 - 160) + (120 - 120) * (120 - 120) < 225)%Z)
    by lia.
  split; [exact H|].
  exact (proj1 (tap_strictly_inside_earth_resets 165 120 busy_globals H)).
Defined.

(** C7 at a tap 30 pixels right of and 40 above the centre (distance 50). *)
Lemma tap_outside_launches_tangentially_witness :
  (of_int EARTH_RADIUS <? dEarth (T:=float) 190 80) = true
  /\ addSpacecraft 190 80 sample_globals =
     with_spacecraft sample_globals
       (mkSpacecraft
          (mkVector (of_int 190) (of_int 80))
          (Vector_mult (quarter_turn (tap_direction 190 80)) (tap_speed 190 80))
          [] (of_int 0) (of_int 0) false).
Proof.
  assert (H : (of_int EARTH_RADIUS <? dEarth (T:=float) 190 80) = true)
    by (vm_compute; reflexivity).
  split; [exact H|].
  exact (proj1 (tap_outside_launches_tangentially 190 80 sample_globals H)).
Defined.

(** C10 at the rim tap 9 right of and 12 below the centre. *)
Lemma rim_tap_creates_doomed_craft_witness :
  ((169 - 160) * (169 - 160) + (132 - 120) * (132 - 120) = 225)%Z
  /\ (dEarth (T:=float) 169 132 <? of_int EARTH_RADIUS) = false.
Proof.
  assert (H : ((169 - 160) * (169 - 160) + (132 - 120) * (132 - 120) = 225)%Z)
    by reflexivity.
  split; [exact H|].
  exact (proj1 (rim_tap_creates_doomed_craft 169 132 sample_globals H)).
Defined.

(** C2 at the sample craft. *)
Lemma update_is_classical_rk4_witness :
  let s' := snd (fst (Spacecraft_update real_craft real_globals)) in
  (pair_of (position s'), pair_of (velocity s')) =
  Described.classical_rk4
    (Described.orbit_ode (Described.gravity (260%R, 120%R))) 1%R
    ((210%R, 0%R), (2%R, 0%R)).
Proof.
  exact (proj1 (update_is_classical_rk4 real_craft real_globals
                  (proj1 real_craft_clear) (proj2 real_craft_clear))).
Defined.

(** C5 at the sample craft. *)
Lemma energy_is_earth_centred_orbital_energy_witness :
  let s' := snd (fst (Spacecraft_update real_craft real_globals)) in
  energy s' =
  Described.specific_orbital_energy
    (pair_of (position s')) (pair_of (velocity s')).
Proof.
  exact (proj1 energy_is_earth_centred_orbital_energy real_craft real_globals
               (proj1 real_craft_clear) (proj2 real_craft_clear)).
Defined.

End Concrete.

(** ** The spacecraft loop as a whole *)

Section CraftLoop.
Context {T : Type} {AR : Arith T}.
Local Open Scope arith_scope.

Lemma Forall_flat_map {A B : Type} (P : B -> Prop) (f : A -> list B)
  (l : list A) :
  (forall a, In a l -> Forall P (f a)) -> Forall P (flat_map f l).
Proof.
  induction l as [|a l IH]; intros H; simpl.
  - constructor.
  - apply Forall_app. split.
    + apply H. left. reflexivity.
    + apply IH. intros b Hb. apply H. right. exact Hb.
Qed.

Lemma flat_map_rev_length {A B : Type} (f : A -> list B) (l : list A) :
  length (flat_map f (rev l)) = length (flat_map f l).
Proof.
  induction l as [|a l IH]; [reflexivity|].
  simpl. rewrite flat_map_app, !length_app. simpl.
  rewrite app_nil_r, IH. lia.
Qed.

(** The three ways an [update] call can end, seen from [craft_outcome]. *)
Lemma craft_outcome_cases (mX mY : T) (s : Spacecraft T) :
  (exists size, (size = 15 \/ size = 10)%Z
     /\ survivor mX mY s = [] /\ sparks mX mY s = []
     /\ blasts mX mY s = [explosion_at (position s) size])
  \/ (exists s', survivor mX mY s = [s'] /\ blasts mX mY s = []
       /\ craft_consistent s'
       /\ trail s' = fifo_push 50 (trail s) (position s')
       /\ (sparks mX mY s = []
           \/ sparks mX mY s =
              [mkSparkle (x (position s')) (y (position s')) 20])).
Proof.
  unfold survivor, sparks, blasts, craft_outcome.
  set (b := blank_globals mX mY).
  destruct (distToEarth (position s) <=? of_int EARTH_RADIUS) eqn:HE.
  - left. exists 15%Z. rewrite (Spacecraft_update_earth s b HE).
    repeat split; auto.
  - destruct (distToMoon (moonX b) (moonY b) (position s) <=? of_int MOON_RADIUS)
      eqn:HM.
    + left. exists 10%Z. rewrite (Spacecraft_update_moon s b HE HM).
      repeat split; auto.
    + right. rewrite (Spacecraft_update_free s b HE HM). cbv zeta.
      set (pv := rk4_step (moonX b) (moonY b) (position s) (velocity s)).
      set (e' := earth_energy (fst pv) (snd pv)).
      destruct (lit_0_1 <? e' - energy s) eqn:Hs; cbn [fst snd];
        eexists; (split; [reflexivity|]); (split; [reflexivity|]);
        (split; [|split]).
      * unfold craft_consistent.
        cbn [trail position velocity energy prevEnergy sparkle].
        split; [|split; [reflexivity | symmetry; exact Hs]].
        rewrite (proj1 (push_trail_fifo _ _)). unfold fifo_push.
        destruct (length (trail s) <? 50)%nat; eexists; reflexivity.
      * cbn [trail position]. apply (proj1 (push_trail_fifo _ _)).
      * right. reflexivity.
      * unfold craft_consistent.
        cbn [trail position velocity energy prevEnergy sparkle].
        split; [|split; [reflexivity | symmetry; exact Hs]].
        rewrite (proj1 (push_trail_fifo _ _)). unfold fifo_push.
        destruct (length (trail s) <? 50)%nat; eexists; reflexivity.
      * cbn [trail position]. apply (proj1 (push_trail_fifo _ _)).
      * left. reflexivity.
Qed.

(** [update] on any globals is [craft_outcome] with the appended effects put
    behind the lists already there. *)
Lemma Spacecraft_update_frame (s : Spacecraft T) (g : Sim T) :
  Spacecraft_update s g =
  (fst (fst (craft_outcome (moonX g) (moonY g) s)),
   snd (fst (craft_outcome (moonX g) (moonY g) s)),
   mkSim (moonAngle g) (moonX g) (moonY g) (moonTrail g) (spacecrafts g)
         (sparkleEffects g ++ sparks (moonX g) (moonY g) s)
         (explosionEffects g ++ blasts (moonX g) (moonY g) s)
         (lastFrameTime g)).
Proof.
  unfold sparks, blasts, craft_outcome.
  set (b := blank_globals (moonX g) (moonY g)).
  assert (Eb : moonX b = moonX g /\ moonY b = moonY g) by (split; reflexivity).
  destruct Eb as [EX EY].
  destruct (distToEarth (position s) <=? of_int EARTH_RADIUS) eqn:HE.
  - rewrite (Spacecraft_update_earth s b HE), (Spacecraft_update_earth s g HE).
    destruct g; unfold with_explosion; cbn. rewrite app_nil_r. reflexivity.
  - destruct (distToMoon (moonX g) (moonY g) (position s) <=? of_int MOON_RADIUS)
      eqn:HM.
    + rewrite (Spacecraft_update_moon s b HE HM),
        (Spacecraft_update_moon s g HE HM).
      destruct g; unfold with_explosion; cbn. rewrite app_nil_r. reflexivity.
    + rewrite (Spacecraft_update_free s b HE HM),
        (Spacecraft_update_free s g HE HM).
      cbv zeta. rewrite EX, EY.
      destruct (lit_0_1 <? _); destruct g; unfold with_sparkle; cbn;
        rewrite ?app_nil_r; reflexivity.
Qed.

(** The loop body at an index in range. *)
Lemma update_spacecraft_at_cut (i : nat) (g : Sim T) (s : Spacecraft T) :
  nth_error (spacecrafts g) i = Some s ->
  update_spacecraft_at i g =
  mkSim (moonAngle g) (moonX g) (moonY g) (moonTrail g)
        (firstn i (spacecrafts g) ++ survivor (moonX g) (moonY g) s
         ++ skipn (S i) (spacecrafts g))
        (sparkleEffects g ++ sparks (moonX g) (moonY g) s)
        (explosionEffects g ++ blasts (moonX g) (moonY g) s)
        (lastFrameTime g).
Proof.
  intros Hi. unfold update_spacecraft_at. rewrite Hi.
  rewrite (Spacecraft_update_frame s g).
  cbn [moonAngle moonX moonY moonTrail spacecrafts sparkleEffects
       explosionEffects lastFrameTime].
  assert (Hlt : (i < length (spacecrafts g))%nat)
    by (apply nth_error_Some; rewrite Hi; discriminate).
  unfold survivor.
  destruct (fst (fst (craft_outcome (moonX g) (moonY g) s))).
  - rewrite erase_assign_at by exact Hlt. reflexivity.
  - reflexivity.
Qed.

Lemma update_spacecrafts_from_prefix (n : nat) :
  forall g : Sim T,
  (n <= length (spacecrafts g))%nat ->
  update_spacecrafts_from n g =
  mkSim (moonAngle g) (moonX g) (moonY g) (moonTrail g)
        (flat_map (survivor (moonX g) (moonY g)) (firstn n (spacecrafts g))
         ++ skipn n (spacecrafts g))
        (sparkleEffects g
         ++ flat_map (sparks (moonX g) (moonY g)) (rev (firstn n (spacecrafts g))))
        (explosionEffects g
         ++ flat_map (blasts (moonX g) (moonY g)) (rev (firstn n (spacecrafts g))))
        (lastFrameTime g).
Proof.
  induction n as [|i IH]; intros g Hn.
  - destruct g. cbn. rewrite !app_nil_r. reflexivity.
  - cbn [update_spacecrafts_from].
    destruct (nth_error (spacecrafts g) i) as [s|] eqn:Hs;
      [|apply nth_error_None in Hs; lia].
    destruct (split_at_index i _ s Hs) as [Hv Hl].
    assert (Hfs : firstn (S i) (spacecrafts g) = firstn i (spacecrafts g) ++ [s]).
    { rewrite Hv at 1.
      replace (S i) with (length (firstn i (spacecrafts g)) + 1)%nat by lia.
      rewrite firstn_app_2. reflexivity. }
    rewrite (update_spacecraft_at_cut i g s Hs), Hfs.
    set (pre := firstn i (spacecrafts g)) in *.
    set (post := skipn (S i) (spacecrafts g)).
    set (mX := moonX g). set (mY := moonY g).
    rewrite IH
      by (cbn [spacecrafts]; rewrite length_app, Hl; lia).
    cbn [moonAngle moonX moonY moonTrail spacecrafts sparkleEffects
         explosionEffects lastFrameTime].
    assert (F : forall rest : list (Spacecraft T), firstn i (pre ++ rest) = pre).
    { intros rest. rewrite firstn_app, Hl, Nat.sub_diag, firstn_O, app_nil_r.
      rewrite <- Hl. apply firstn_all. }
    assert (K : forall rest : list (Spacecraft T), skipn i (pre ++ rest) = rest).
    { intros rest. rewrite skipn_app, Hl, Nat.sub_diag, skipn_O.
      rewrite <- Hl at 1. rewrite skipn_all. reflexivity. }
    rewrite !F, K.
    rewrite rev_unit, flat_map_app. cbn [flat_map].
    rewrite !app_nil_r, <- !app_assoc. reflexivity.
Qed.

Lemma update_spacecrafts_whole (g : Sim T) :
  update_spacecrafts g =
  mkSim (moonAngle g) (moonX g) (moonY g) (moonTrail g)
        (flat_map (survivor (moonX g) (moonY g)) (spacecrafts g))
        (sparkleEffects g
         ++ flat_map (sparks (moonX g) (moonY g)) (rev (spacecrafts g)))
        (explosionEffects g
         ++ flat_map (blasts (moonX g) (moonY g)) (rev (spacecrafts g)))
        (lastFrameTime g).
Proof.
  unfold update_spacecrafts.
  rewrite update_spacecrafts_from_prefix by lia.
  rewrite firstn_all, skipn_all, app_nil_r. reflexivity.
Qed.

(** X: the spacecraft loop.  Walking the indices downwards and erasing in
    place leaves, in their order, the updated crafts that were not
    destroyed: every craft is updated exactly once, none is skipped after an
    erase.  The effects the calls appended follow the old ones, those of
    the last craft first.  Moon, Moon trail and frame timer are untouched. *)
Theorem update_spacecrafts_visits_each_once (g : Sim T) :
  update_spacecrafts g =
  mkSim (moonAngle g) (moonX g) (moonY g) (moonTrail g)
        (flat_map (survivor (moonX g) (moonY g)) (spacecrafts g))
        (sparkleEffects g
         ++ flat_map (sparks (moonX g) (moonY g)) (rev (spacecrafts g)))
        (explosionEffects g
         ++ flat_map (blasts (moonX g) (moonY g)) (rev (spacecrafts g)))
        (lastFrameTime g).
Proof. exact (update_spacecrafts_whole g). Qed.

(** X: what one [update] call may touch.  The call depends on the globals
    only through the Moon's position; it keeps every effect already listed,
    and appends exactly one explosion when it reports destroyed, at most one
    sparkle (and no explosion) when it does not. *)
Theorem update_only_appends (s : Spacecraft T) (g : Sim T) :
  Spacecraft_update s g =
  (fst (fst (craft_outcome (moonX g) (moonY g) s)),
   snd (fst (craft_outcome (moonX g) (moonY g) s)),
   mkSim (moonAngle g) (moonX g) (moonY g) (moonTrail g) (spacecrafts g)
         (sparkleEffects g ++ sparks (moonX g) (moonY g) s)
         (explosionEffects g ++ blasts (moonX g) (moonY g) s)
         (lastFrameTime g))
  /\ (length (survivor (moonX g) (moonY g) s)
      + length (blasts (moonX g) (moonY g) s) = 1)%nat
  /\ (length (sparks (moonX g) (moonY g) s)
      <= length (survivor (moonX g) (moonY g) s))%nat.
Proof.
  split; [apply Spacecraft_update_frame|].
  destruct (craft_outcome_cases (moonX g) (moonY g) s)
    as [(size & _ & -> & -> & ->) | (s' & -> & -> & _ & _ & [-> | ->])];
    simpl; lia.
Qed.

Lemma outcome_counts (mX mY : T) (v : list (Spacecraft T)) :
  (length (flat_map (survivor mX mY) v) + length (flat_map (blasts mX mY) v)
   = length v)%nat
  /\ (length (flat_map (sparks mX mY) v)
      <= length (flat_map (survivor mX mY) v))%nat.
Proof.
  induction v as [|s v [IH1 IH2]]; [split; reflexivity|].
  cbn [flat_map length]. rewrite !length_app.
  destruct (craft_outcome_cases mX mY s)
    as [(size & _ & -> & -> & ->) | (s' & -> & -> & _ & _ & [-> | ->])];
    simpl; lia.
Qed.

(** X: one explosion per destroyed craft.  Over the spacecraft loop the
    number of crafts plus the number of explosions stays the same, and the
    sparkles added are at most as many as the crafts that remain. *)
Theorem update_spacecrafts_trades_crafts_for_explosions (g : Sim T) :
  (length (spacecrafts (update_spacecrafts g))
   + length (explosionEffects (update_spacecrafts g))
   = length (spacecrafts g) + length (explosionEffects g))%nat
  /\ (length (sparkleEffects g)
      <= length (sparkleEffects (update_spacecrafts g))
      <= length (sparkleEffects g)
         + length (spacecrafts (update_spacecrafts g)))%nat.
Proof.
  rewrite update_spacecrafts_whole.
  cbn [spacecrafts explosionEffects sparkleEffects].
  rewrite !length_app, !flat_map_rev_length.
  destruct (outcome_counts (moonX g) (moonY g) (spacecrafts g)) as [H1 H2].
  lia.
Qed.

End CraftLoop.

(** ** What holds between frames *)

Section BetweenFrames.
Context {T : Type} {AR : Arith T} {LM : Libm T}.
Local Open Scope arith_scope.

(** A frame, field by field. *)
Lemma tick_fields (touch : option (Z * Z)) (g : Sim T) :
  let g1 := match touch with
            | Some (tx, ty) => addSpacecraft tx ty g
            | None => g
            end in
  let mA := moonAngle g1 + MOON_ANGULAR_VELOCITY in
  let mX := of_int CENTER_X + of_int MOON_DISTANCE * cos mA in
  let mY := of_int CENTER_Y + of_int MOON_DISTANCE * sin mA in
  tick touch g =
  mkSim mA mX mY
        (push_trail MOON_TRAIL_LENGTH (moonTrail g1) (mkVector mX mY))
        (flat_map (survivor mX mY) (spacecrafts g1))
        (age_sparkles
           (sparkleEffects g1 ++ flat_map (sparks mX mY) (rev (spacecrafts g1))))
        (age_explosions
           (explosionEffects g1 ++ flat_map (blasts mX mY) (rev (spacecrafts g1))))
        (lastFrameTime g1).
Proof.
  cbv zeta. unfold tick. rewrite update_spacecrafts_whole.
  unfold updateMoonPosition. reflexivity.
Qed.

Lemma run_from_keeps (P : Sim T -> Prop) :
  (forall now touch g, P g -> P (tick touch (stamp now g))) ->
  forall calls g, P g -> P (run_from g calls).
Proof.
  intros Htick calls.
  induction calls as [|[now touch] rest IH]; intros g Hg; simpl.
  - exact Hg.
  - apply IH. unfold loop.
    destruct (ulong_sub now (lastFrameTime g) <? 33)%Z; cbn [fst].
    + exact Hg.
    + apply (Htick now touch g Hg).
Qed.

Lemma sparks_new (mX mY : T) (s : Spacecraft T) :
  Forall (fun e => sp_life e = 20%Z) (sparks mX mY s).
Proof.
  destruct (craft_outcome_cases mX mY s)
    as [(size & _ & _ & -> & _) | (s' & _ & _ & _ & _ & [-> | ->])];
    repeat constructor.
Qed.

Lemma blasts_new (mX mY : T) (s : Spacecraft T) :
  Forall (fun e => ex_life e = 30%Z /\ (ex_size e = 15 \/ ex_size e = 10)%Z)
         (blasts mX mY s).
Proof.
  destruct (craft_outcome_cases mX mY s)
    as [(size & Hsz & _ & _ & ->) | (s' & _ & -> & _)].
  - constructor; [|constructor]. split; [reflexivity | exact Hsz].
  - constructor.
Qed.

Lemma age_sparkles_fresh (v : list (SparkleEffect T)) :
  Forall (fun e => (1 <= sp_life e <= 20)%Z) v ->
  Forall sparkle_fresh (age_sparkles v).
Proof.
  intros Hv. rewrite age_sparkles_pass.
  apply Forall_flat_map. intros e He.
  pose proof (proj1 (Forall_forall _ _) Hv e He) as Hl. cbv beta in Hl.
  unfold age_sparkle. cbn [sp_life].
  rewrite wrap_int_small by (unfold INT_MIN, INT_MAX; lia).
  destruct (Z.leb_spec (sp_life e - 1) 0); constructor; [|constructor].
  unfold sparkle_fresh. cbn [sp_life]. lia.
Qed.

Lemma age_explosions_fresh (v : list (ExplosionEffect T)) :
  Forall (fun e => (1 <= ex_life e <= 30)%Z
                   /\ (ex_size e = 15 \/ ex_size e = 10)%Z) v ->
  Forall explosion_fresh (age_explosions v).
Proof.
  intros Hv. rewrite age_explosions_pass.
  apply Forall_flat_map. intros e He.
  pose proof (proj1 (Forall_forall _ _) Hv e He) as [Hl Hs]. 
  unfold age_explosion. cbn [ex_life].
  rewrite wrap_int_small by (unfold INT_MIN, INT_MAX; lia).
  destruct (Z.leb_spec (ex_life e - 1) 0); constructor; [|constructor].
  unfold explosion_fresh. cbn [ex_life ex_size ex_alpha].
  split; [lia | split; [exact Hs | reflexivity]].
Qed.

Lemma tick_fresh (touch : option (Z * Z)) (g : Sim T) :
  Forall sparkle_fresh (sparkleEffects g)
  /\ Forall explosion_fresh (explosionEffects g) ->
  Forall sparkle_fresh (sparkleEffects (tick touch g))
  /\ Forall explosion_fresh (explosionEffects (tick touch g)).
Proof.
  intros [Hs He]. rewrite tick_fields. cbv zeta.
  cbn [sparkleEffects explosionEffects].
  set (g1 := match touch with
             | Some (tx, ty) => addSpacecraft tx ty g
             | None => g
             end).
  assert (H1 : Forall sparkle_fresh (sparkleEffects g1)
               /\ explosionEffects g1 = explosionEffects g).
  { subst g1. destruct touch as [[tx ty]|]; [|split; [exact Hs | reflexivity]].
    unfold addSpacecraft.
    destruct (dEarth tx ty <? of_int EARTH_RADIUS); cbn; split;
      try reflexivity; [constructor | exact Hs]. }
  destruct H1 as [Hs1 He1]. rewrite He1.
  split.
  - apply age_sparkles_fresh, Forall_app. split.
    + eapply Forall_impl; [|exact Hs1]. unfold sparkle_fresh. intros e; lia.
    + apply Forall_flat_map. intros s _.
      eapply Forall_impl; [|apply sparks_new]. cbv beta. intros e; lia.
  - apply age_explosions_fresh, Forall_app. split.
    + eapply Forall_impl; [|exact He]. unfold explosion_fresh.
      intros e (Hl & Hz & _). split; [lia | exact Hz].
    + apply Forall_flat_map. intros s _.
      eapply Forall_impl; [|apply blasts_new]. cbv beta.
      intros e [Hl Hz]. split; [lia | exact Hz].
Qed.

Lemma run_effects_fresh (calls : list (Z * option (Z * Z))) :
  Forall sparkle_fresh (sparkleEffects (run calls))
  /\ Forall explosion_fresh (explosionEffects (run calls)).
Proof.
  unfold run.
  apply (run_from_keeps
           (fun g => Forall sparkle_fresh (sparkleEffects g)
                     /\ Forall explosion_fresh (explosionEffects g))).
  - intros now touch g H. apply tick_fresh. exact H.
  - split; constructor.
Qed.

(** X: effects between frames.  In every state the sketch reaches, each
    sparkle has a life from 1 to 19 and each explosion a life from 1 to 29,
    size 15 or 10 and alpha 255 * (life / 30): an effect is aged in the
    frame that creates it, nothing spent is ever left in a list, and the
    32-bit life counters never wrap. *)
Theorem effects_stay_fresh (calls : list (Z * option (Z * Z))) :
  Forall sparkle_fresh (sparkleEffects (run calls))
  /\ Forall explosion_fresh (explosionEffects (run calls)).
Proof. exact (run_effects_fresh calls). Qed.

Lemma tick_consistent (touch : option (Z * Z)) (g : Sim T) :
  Forall craft_consistent (spacecrafts (tick touch g)).
Proof.
  rewrite tick_fields. cbv zeta. cbn [spacecrafts].
  apply Forall_flat_map. intros s _.
  match goal with |- Forall _ (survivor ?mX ?mY s) =>
    destruct (craft_outcome_cases mX mY s)
      as [(size & _ & -> & _) | (s' & -> & _ & Hc & _)]
  end.
  - constructor.
  - constructor; [exact Hc | constructor].
Qed.

(** X: crafts between frames.  In every state the sketch reaches, every
    craft in the list has been updated at least once: its trail ends at its
    position, its energy is the Earth-centred energy of its position and
    velocity, and its sparkle flag says whether its last step raised the
    energy by more than 0.1. *)
Theorem crafts_stay_consistent (calls : list (Z * option (Z * Z))) :
  Forall craft_consistent (spacecrafts (run calls)).
Proof.
  unfold run.
  apply (run_from_keeps (fun g => Forall craft_consistent (spacecrafts g))).
  - intros now touch g _. apply tick_consistent.
  - constructor.
Qed.

Lemma fifo_push_ends (cap : nat) (tr : list (Vector T)) (p : Vector T) :
  exists older, fifo_push cap tr p = older ++ [p].
Proof.
  unfold fifo_push. destruct (length tr <? cap)%nat; eexists; reflexivity.
Qed.

Lemma updateMoonPosition_recorded (g : Sim T) :
  moon_recorded (updateMoonPosition g).
Proof.
  unfold moon_recorded. rewrite updateMoonPosition_trail.
  apply fifo_push_ends.
Qed.

(** X: the Moon's trail.  In every state the sketch reaches, the newest
    point of the Moon's trail is the Moon's current position. *)
Theorem moon_trail_ends_at_moon (calls : list (Z * option (Z * Z))) :
  moon_recorded (run calls).
Proof.
  unfold run. apply (run_from_keeps moon_recorded).
  - intros now touch g _. rewrite tick_fields. cbv zeta.
    unfold moon_recorded. cbn [moonTrail moonX moonY].
    rewrite (proj2 (push_trail_fifo _ _)). apply fifo_push_ends.
  - unfold setup. apply updateMoonPosition_recorded.
Qed.

End BetweenFrames.

(** ** Whole frames *)

Section WholeFrames.
Context {T : Type} {AR : Arith T} {LM : Libm T}.
Local Open Scope arith_scope.

Lemma ulong_sub_elapsed (last d : Z) :
  (0 <= d < 2 ^ 32)%Z -> ulong_sub ((last + d) mod 2 ^ 32) last = d.
Proof.
  intros Hd. unfold ulong_sub.
  rewrite Zminus_mod_idemp_l.
  replace (last + d - last)%Z with d by lia.
  apply Z.mod_small. exact Hd.
Qed.

Lemma tick_keeps_timer (touch : option (Z * Z)) (g : Sim T) :
  lastFrameTime (tick touch g) = lastFrameTime g.
Proof.
  rewrite tick_fields. cbv zeta. cbn [lastFrameTime].
  destruct touch as [[tx ty]|]; [|reflexivity].
  unfold addSpacecraft. destruct (dEarth tx ty <? of_int EARTH_RADIUS);
    reflexivity.
Qed.

(** X: the frame gate and the 32-bit clock.  Let [d] milliseconds (less than
    2^32) have passed since the last frame, the clock possibly having
    wrapped around in between.  If d < 33 the call changes nothing, draws
    nothing and drops the tap; otherwise it runs one frame, records the
    clock value as the time of the last frame, and draws the new state
    followed by one push of the sprite. *)
Theorem frame_gate_survives_clock_wrap
  (now d : Z) (touch : option (Z * Z)) (g : Sim T) :
  (0 <= d < 2 ^ 32)%Z ->
  now = ((lastFrameTime g + d) mod 2 ^ 32)%Z ->
  ((d < 33)%Z -> loop now touch g = (g, []))
  /\ ((33 <= d)%Z ->
      fst (loop now touch g) = tick touch (stamp now g)
      /\ lastFrameTime (fst (loop now touch g)) = now
      /\ snd (loop now touch g) =
         drawToSprite (fst (loop now touch g)) ++ [PushSprite 0 0]).
Proof.
  intros Hd ->. unfold loop.
  rewrite (ulong_sub_elapsed (lastFrameTime g) d Hd).
  split; intros H.
  - destruct (Z.ltb_spec d 33); [reflexivity | lia].
  - destruct (Z.ltb_spec d 33); [lia|].
    cbn [fst snd]. split; [reflexivity|]. split; [|reflexivity].
    change (mkSim (moonAngle g) (moonX g) (moonY g) (moonTrail g)
                  (spacecrafts g) (sparkleEffects g) (explosionEffects g)
                  ((lastFrameTime g + d) mod 2 ^ 32))
      with (stamp ((lastFrameTime g + d) mod 2 ^ 32) g).
    rewrite tick_keeps_timer. reflexivity.
Qed.

(** X: a reset frame.  A frame whose tap passes the reset test ends with no
    spacecraft and no sparkle, whatever was there, while the explosions are
    aged as in any frame and the Moon moves on as without the tap. *)
Theorem reset_tap_empties_the_frame (tx ty : Z) (g : Sim T) :
  (dEarth tx ty <? of_int EARTH_RADIUS) = true ->
  spacecrafts (tick (Some (tx, ty)) g) = []
  /\ sparkleEffects (tick (Some (tx, ty)) g) = []
  /\ explosionEffects (tick (Some (tx, ty)) g) =
     age_explosions (explosionEffects g)
  /\ moonAngle (tick (Some (tx, ty)) g) = moonAngle (tick None g)
  /\ moonX (tick (Some (tx, ty)) g) = moonX (tick None g)
  /\ moonY (tick (Some (tx, ty)) g) = moonY (tick None g)
  /\ moonTrail (tick (Some (tx, ty)) g) = moonTrail (tick None g).
Proof.
  intros H. rewrite !tick_fields. cbv zeta.
  unfold addSpacecraft. rewrite H.
  cbn [spacecrafts sparkleEffects explosionEffects moonAngle moonX moonY
       moonTrail rev flat_map app].
  rewrite ?app_nil_r. repeat split; reflexivity.
Qed.

(** X: a frame whose tap launches a craft inside the Earth.  When the tap
    fails the reset test but the launched craft's position passes the Earth
    collision test (the rim of the Earth), the frame ends with the same
    crafts and sparkles as the frame without the tap; the only trace is one
    explosion of size 15, already aged to life 29, placed after the aged old
    explosions and before those of the crafts destroyed in this frame. *)
Theorem doomed_launch_leaves_only_an_explosion (tx ty : Z) (g : Sim T) :
  (dEarth tx ty <? of_int EARTH_RADIUS) = false ->
  (distToEarth (mkVector (of_int tx) (of_int ty)) <=? of_int EARTH_RADIUS) = true ->
  spacecrafts (tick (Some (tx, ty)) g) = spacecrafts (tick None g)
  /\ sparkleEffects (tick (Some (tx, ty)) g) = sparkleEffects (tick None g)
  /\ exists later,
      explosionEffects (tick None g) =
      age_explosions (explosionEffects g) ++ later
      /\ explosionEffects (tick (Some (tx, ty)) g) =
         age_explosions (explosionEffects g)
         ++ [mkExplosion (of_int tx) (of_int ty) 15 29
                         (of_int 255 * (of_int 29 / of_int 30))]
         ++ later.
Proof.
  intros Hreset Hhit. rewrite !tick_fields. cbv zeta.
  unfold addSpacecraft. rewrite Hreset.
  cbn [spacecrafts sparkleEffects explosionEffects moonAngle].
  set (mA := moonAngle g + MOON_ANGULAR_VELOCITY).
  set (mX := of_int CENTER_X + of_int MOON_DISTANCE * cos mA).
  set (mY := of_int CENTER_Y + of_int MOON_DISTANCE * sin mA).
  match goal with |- context [spacecrafts g ++ [?c]] => set (new := c) end.
  assert (Hnew : Spacecraft_update new (blank_globals mX mY) =
                 (true, new,
                  with_explosion (blank_globals mX mY)
                    (explosion_at (position new) 15)))
    by (apply Spacecraft_update_earth; exact Hhit).
  assert (S0 : survivor mX mY new = [])
    by (unfold survivor, craft_outcome; rewrite Hnew; reflexivity).
  assert (P0 : sparks mX mY new = [])
    by (unfold sparks, craft_outcome; rewrite Hnew; reflexivity).
  assert (B0 : blasts mX mY new =
               [mkExplosion (of_int tx) (of_int ty) 15 30 (of_int 255)])
    by (unfold blasts, craft_outcome; rewrite Hnew; reflexivity).
  rewrite rev_unit, flat_map_app. cbn [flat_map].
  rewrite S0, P0, B0, !app_nil_r. cbn [app].
  split; [reflexivity|]. split; [reflexivity|].
  rewrite !age_explosions_pass, !flat_map_app. cbn [flat_map].
  eexists. split; reflexivity.
Qed.

End WholeFrames.

(** ** binary64: comparisons and the drawn explosion *)

Section Binary64More.
Local Open Scope arith_scope.

Lemma SFcompare_antisym (a b : spec_float) :
  SFcompare b a = option_map CompOpp (SFcompare a b).
Proof.
  destruct a as [sa|sa| |sa ma ea], b as [sb|sb| |sb mb eb]; simpl;
    try destruct sa; try destruct sb; simpl; try reflexivity;
    rewrite (Z.compare_antisym ea eb);
    change (PosDef.Pos.compare_cont Eq mb ma) with (Pos.compare mb ma);
    change (PosDef.Pos.compare_cont Eq ma mb) with (Pos.compare ma mb);
    rewrite (Pos.compare_antisym ma mb);
    destruct (ea ?= eb)%Z; simpl; try reflexivity;
    destruct (ma ?= mb)%positive; reflexivity.
Qed.

(** On doubles [neqb] is the negation of IEEE equality: NaN differs from
    everything, the two zeros are equal. *)
Lemma float_neqb (a b : float) : neqb a b = negb (PrimFloat.eqb a b).
Proof.
  unfold neqb. f_equal.
  change ((PrimFloat.leb a b && PrimFloat.leb b a) = PrimFloat.eqb a b).
  rewrite !FloatAxioms.leb_spec, FloatAxioms.eqb_spec.
  unfold SFleb, SFeqb. rewrite (SFcompare_antisym (Prim2SF a) (Prim2SF b)).
  destruct (SFcompare (Prim2SF a) (Prim2SF b)) as [[| |]|]; reflexivity.
Qed.

Lemma lives_cover (l : Z) : (1 <= l <= 29)%Z -> In l lives_1_to_29.
Proof.
  intros H. unfold lives_1_to_29.
  replace l with (Z.of_nat (Z.to_nat l)) by lia.
  apply in_map, in_seq. lia.
Qed.

Lemma explosion_draws_checked :
  forallb (fun l => explosion_draw_ok 15 l && explosion_draw_ok 10 l)
          lives_1_to_29 = true.
Proof. vm_compute. reflexivity. Qed.

Lemma fresh_explosion_draws (e : ExplosionEffect float) :
  explosion_fresh e ->
  (0 <= explosion_draw_size e < ex_size e)%Z
  /\ (0 <= explosion_green e < 256)%Z
  /\ explosion_green e =
     to_int (T:=float)
       (of_int 255 * (of_int 1 - of_int (ex_life e) / of_int 30)).
Proof.
  intros (Hl & Hs & _).
  pose proof explosion_draws_checked as C.
  rewrite forallb_forall in C. specialize (C _ (lives_cover _ Hl)).
  apply andb_true_iff in C. destruct C as [C15 C10].
  assert (C : explosion_draw_ok (ex_size e) (ex_life e) = true)
    by (destruct Hs as [-> | ->]; assumption).
  unfold explosion_draw_ok in C. cbv zeta in C.
  apply andb_true_iff in C. destruct C as [C C4].
  apply andb_true_iff in C. destruct C as [C C3].
  apply andb_true_iff in C. destruct C as [C1 C2].
  apply Z.leb_le in C1, C3. apply Z.ltb_lt in C2, C4.
  assert (G : explosion_green e =
              to_int (T:=float)
       (of_int 255 * (of_int 1 - of_int (ex_life e) / of_int 30)))
    by (unfold explosion_green; apply Z.mod_small; split; [exact C3 | exact C4]).
  split; [split; [exact C1 | exact C2]|].
  split; [rewrite G; split; [exact C3 | exact C4] | exact G].
Qed.

(** X: what is drawn for an explosion.  In every state the binary64 sketch
    reaches, whatever [std::cos] and [std::sin] return, each explosion is
    drawn with a radius from 0 to size - 1, and its green level lies in
    0..255 before the conversion to [uint8_t], so that conversion loses
    nothing. *)
Theorem explosions_draw_within_bounds
  (LM : Libm float) (calls : list (Z * option (Z * Z))) :
  Forall (fun e : ExplosionEffect float =>
            (0 <= explosion_draw_size e < ex_size e)%Z
            /\ (0 <= explosion_green e < 256)%Z
            /\ explosion_green e =
               to_int (T:=float)
       (of_int 255 * (of_int 1 - of_int (ex_life e) / of_int 30)))
         (explosionEffects (run (T:=float) (LM:=LM) calls)).
Proof.
  eapply Forall_impl; [|exact (proj2 (run_effects_fresh (LM:=LM) calls))].
  intros e He. apply fresh_explosion_draws. exact He.
Qed.

End Binary64More.

(** ** Exact arithmetic: geometry *)

Section ExactGeometry.
Local Open Scope R_scope.

Lemma on_circle (a : R) :
  (160 + 100 * Rtrigo_def.cos a - 160) * (160 + 100 * Rtrigo_def.cos a - 160)
  + (120 + 100 * Rtrigo_def.sin a - 120) * (120 + 100 * Rtrigo_def.sin a - 120)
  = 100 * 100.
Proof.
  pose proof (sin2_cos2 a) as H. unfold Rsqr in H.
  replace ((160 + 100 * Rtrigo_def.cos a - 160)
           * (160 + 100 * Rtrigo_def.cos a - 160)
           + (120 + 100 * Rtrigo_def.sin a - 120)
             * (120 + 100 * Rtrigo_def.sin a - 120))
    with (100 * 100
          * (Rtrigo_def.sin a * Rtrigo_def.sin a
             + Rtrigo_def.cos a * Rtrigo_def.cos a)) by ring.
  rewrite H. ring.
Qed.

Lemma updateMoonPosition_on_circle (g : Sim R) :
  (moonX (updateMoonPosition g) - 160) * (moonX (updateMoonPosition g) - 160)
  + (moonY (updateMoonPosition g) - 120) * (moonY (updateMoonPosition g) - 120)
  = 100 * 100.
Proof.
  unfold updateMoonPosition.
  cbn [moonX moonY add mul of_int real_arith cos sin real_libm].
  change (IZR CENTER_X) with 160. change (IZR CENTER_Y) with 120.
  change (IZR MOON_DISTANCE) with 100. apply on_circle.
Qed.

(** X: the Moon's orbit.  In exact arithmetic the Moon is, in every state
    the sketch reaches, on the circle of radius MOON_DISTANCE = 100 around
    the screen centre; the distance the Earth collision test would compute
    for it is exactly 100. *)
Theorem moon_stays_on_its_circle (calls : list (Z * option (Z * Z))) :
  let g := run (T:=R) calls in
  (moonX g - 160) * (moonX g - 160) + (moonY g - 120) * (moonY g - 120)
  = 100 * 100
  /\ distToEarth (mkVector (moonX g) (moonY g)) = 100.
Proof.
  cbv zeta.
  assert (C : (moonX (run (T:=R) calls) - 160) * (moonX (run (T:=R) calls) - 160)
              + (moonY (run (T:=R) calls) - 120) * (moonY (run (T:=R) calls) - 120)
              = 100 * 100).
  { unfold run.
    apply (run_from_keeps
             (fun g : Sim R =>
                (moonX g - 160) * (moonX g - 160)
                + (moonY g - 120) * (moonY g - 120) = 100 * 100)).
    - intros now touch g _. rewrite tick_fields. cbv zeta.
      cbn [moonX moonY add mul of_int real_arith cos sin real_libm].
      change (IZR CENTER_X) with 160. change (IZR CENTER_Y) with 120.
      change (IZR MOON_DISTANCE) with 100. apply on_circle.
    - unfold setup. apply updateMoonPosition_on_circle. }
  split; [exact C|].
  unfold distToEarth, pow2.
  cbn [x y add sub mul sqrt of_int real_arith].
  change (IZR CENTER_X) with 160. change (IZR CENTER_Y) with 120.
  rewrite C. apply sqrt_square. lra.
Qed.

Lemma neqb_real (m : R) : 0 <= m -> neqb m 0 = true <-> m <> 0.
Proof.
  intros Hm. unfold neqb. cbn [leb real_arith]. unfold Rleb.
  destruct (Rle_dec m 0) as [L|L], (Rle_dec 0 m) as [U|U]; cbn;
    split; intros H; try reflexivity; try discriminate; try lra.
Qed.

(** X: normalize.  In exact arithmetic, scaling the normalized vector by the
    original magnitude gives the vector back, for every vector; a vector
    that is not zero is normalized to magnitude 1, and the zero vector is
    left as it is (no division by zero). *)
Theorem normalize_then_scale_restores (v : Vector R) :
  Vector_multBy (Vector_normalize v) (Vector_mag v) = v
  /\ ((x v <> 0 \/ y v <> 0) -> Vector_mag (Vector_normalize v) = 1)
  /\ (x v = 0 -> y v = 0 -> Vector_normalize v = v).
Proof.
  destruct v as [a b]. cbn [x y].
  unfold Vector_normalize, Vector_multBy.
  set (m := Vector_mag (mkVector a b)).
  assert (Hq : 0 <= a * a + b * b) by nra.
  assert (Hm : 0 <= m) by (apply sqrt_pos).
  assert (Hmm : m * m = a * a + b * b) by (apply sqrt_sqrt; exact Hq).
  change (of_int (T:=R) 0) with 0.
  destruct (neqb m 0) eqn:N.
  - assert (Hn : m <> 0) by (apply (neqb_real m Hm); exact N).
    cbn [x y mul div real_arith].
    split; [f_equal; field; exact Hn|]. split.
    + intros _. unfold Vector_mag. cbn [x y add mul sqrt real_arith].
      replace (a / m * (a / m) + b / m * (b / m))
        with ((a * a + b * b) / (m * m)) by (field; exact Hn).
      rewrite <- Hmm.
      replace (m * m / (m * m)) with 1 by (field; exact Hn).
      apply sqrt_1.
    + intros -> ->. exfalso. apply Hn.
      assert (Z0 : m * m = 0) by (rewrite Hmm; ring). nra.
  - assert (Hz : m = 0).
    { destruct (Req_dec m 0) as [E|E]; [exact E|].
      apply (neqb_real m Hm) in E. rewrite E in N. discriminate. }
    assert (Ha : a = 0) by nra. assert (Hb : b = 0) by nra.
    subst a b. cbn [x y mul real_arith].
    split; [f_equal; ring|]. split; [intros [H|H]; contradiction | reflexivity].
Qed.

(** X: the launch is tangential.  In exact arithmetic, a tap that fails the
    reset test appends a craft whose velocity is perpendicular to the line
    from the screen centre to the tap and has magnitude exactly
    1 + 3 * (distance / 160); its angular momentum about the centre, r x v,
    is negative, the sense opposite to the Moon's, whose angle increases.
    The distance is at least EARTH_RADIUS, so nothing is divided by zero. *)
Theorem launch_is_tangential (tx ty : Z) (g : Sim R) :
  (dEarth tx ty <? of_int EARTH_RADIUS)%A = false ->
  exists s : Spacecraft R,
    addSpacecraft tx ty g = with_spacecraft g s
    /\ position s = mkVector (IZR tx) (IZR ty)
    /\ 15 <= dEarth tx ty
    /\ x (velocity s) * IZR (int_sub tx CENTER_X)
       + y (velocity s) * IZR (int_sub ty CENTER_Y) = 0
    /\ Vector_mag (velocity s) = 1 + 3 * (dEarth tx ty / 160)
    /\ IZR (int_sub tx CENTER_X) * y (velocity s)
       - IZR (int_sub ty CENTER_Y) * x (velocity s) < 0.
Proof.
  intros H. unfold addSpacecraft. rewrite H.
  eexists. split; [reflexivity|]. split; [reflexivity|].
  cbn [velocity Spacecraft_new x y].
  assert (Hd : 15 <= dEarth tx ty).
  { cbn [ltb real_arith] in H. unfold Rltb in H.
    change (of_int (T:=R) EARTH_RADIUS) with 15 in H.
    destruct (Rlt_dec (dEarth tx ty) 15); [discriminate | lra]. }
  split; [exact Hd|].
  unfold dEarth, pow2 in *.
  cbn [add sub mul div neg sqrt of_int real_arith] in *.
  change (IZR CENTER_X) with 160.
  set (dx := IZR (int_sub tx CENTER_X)) in *.
  set (dy := IZR (int_sub ty CENTER_Y)) in *.
  set (m := R_sqrt.sqrt (dx * dx + dy * dy)) in *.
  assert (Hq : 0 <= dx * dx + dy * dy) by nra.
  assert (Hmm : m * m = dx * dx + dy * dy) by (apply sqrt_sqrt; exact Hq).
  assert (Hn : m <> 0) by lra.
  set (sp := 1 + 3 * (m / 160)).
  assert (Hsp : 0 < sp).
  { subst sp. assert (0 <= m / 160) by (apply Rle_mult_inv_pos; lra). lra. }
  split; [field; exact Hn|]. split.
  - unfold Vector_mag. cbn [x y add mul sqrt real_arith].
    replace (dy / m * sp * (dy / m * sp) + - dx / m * sp * (- dx / m * sp))
      with (sp * sp * ((dx * dx + dy * dy) / (m * m))) by (field; exact Hn).
    rewrite <- Hmm.
    replace (sp * sp * (m * m / (m * m))) with (sp * sp) by (field; exact Hn).
    apply sqrt_square. lra.
  - replace (dx * (- dx / m * sp) - dy * (dy / m * sp))
      with (- (sp * ((dx * dx + dy * dy) / m))) by (field; exact Hn).
    rewrite <- Hmm.
    replace (m * m / m) with m by (field; exact Hn).
    assert (0 < sp * m) by (apply Rmult_lt_0_compat; lra). lra.
Qed.

End ExactGeometry.

(** ** Drawing a trail *)

Section Polyline.
Context {T : Type} {AR : Arith T}.

(** X: trails are drawn as connected segments.  For a trail of n points the
    draw list has n - 1 lines (none for an empty or one-point trail), and
    line k runs from point k to point k + 1, both converted to pixels by
    truncation: the lines of the source's loop over i = 1 .. n - 1. *)
Theorem draw_polyline_joins_neighbours (color : Z) (v : list (Vector T)) :
  length (draw_polyline color v) = Nat.pred (length v)
  /\ forall (k : nat) (a b : Vector T),
      nth_error v k = Some a ->
      nth_error v (S k) = Some b ->
      nth_error (draw_polyline color v) k =
      Some (DrawLine (to_int (x a)) (to_int (y a))
                     (to_int (x b)) (to_int (y b)) color).
Proof.
  induction v as [|p v [IHl IHn]]; [split; [reflexivity|]|].
  - intros k a b H. destruct k; discriminate H.
  - destruct v as [|q v].
    + split; [reflexivity|]. intros k a b _ H. destruct k; discriminate H.
    + split.
      * change (draw_polyline color (p :: q :: v))
          with (DrawLine (to_int (x p)) (to_int (y p))
                         (to_int (x q)) (to_int (y q)) color
                :: draw_polyline color (q :: v)).
        change (length (DrawLine (to_int (x p)) (to_int (y p))
                                 (to_int (x q)) (to_int (y q)) color
                        :: draw_polyline color (q :: v)))
          with (S (length (draw_polyline color (q :: v)))).
        rewrite IHl. reflexivity.
      * intros k a b Ha Hb. destruct k as [|k].
        -- cbn in Ha, Hb. injection Ha as <-. injection Hb as <-. reflexivity.
        -- change (nth_error (draw_polyline color (p :: q :: v)) (S k))
             with (nth_error (draw_polyline color (q :: v)) k).
           apply IHn; assumption.
Qed.

End Polyline.

(** ** Concrete evaluations, continued *)

Section ConcreteMore.
Local Open Scope arith_scope.

(** The gate 20 ms after a frame stamped 10 ms before the clock wrapped. *)
Lemma frame_gate_survives_clock_wrap_witness :
  loop (LM:=small_angle_libm) 10 (Some (190, 80)%Z)
       (stamp 4294967286 sample_globals)
  = (stamp 4294967286 sample_globals, []).
Proof.
  assert (Hd : (0 <= 20 < 2 ^ 32)%Z) by lia.
  assert (Hn : 10%Z = ((lastFrameTime (stamp 4294967286 sample_globals) + 20)
                       mod 2 ^ 32)%Z) by reflexivity.
  assert (Hs : (20 < 33)%Z) by lia.
  exact (proj1 (frame_gate_survives_clock_wrap (LM:=small_angle_libm)
                  10 20 (Some (190, 80)%Z)
                  (stamp 4294967286 sample_globals) Hd Hn) Hs).
Defined.

Lemma reset_tap_empties_the_frame_witness :
  spacecrafts (tick (LM:=small_angle_libm) (Some (165, 120)%Z) busy_globals) = [].
Proof.
  assert (H : (dEarth (T:=float) 165 120 <? of_int EARTH_RADIUS) = true)
    by (vm_compute; reflexivity).
  exact (proj1 (reset_tap_empties_the_frame (LM:=small_angle_libm)
                  165 120 busy_globals H)).
Defined.

Lemma doomed_launch_leaves_only_an_explosion_witness :
  spacecrafts (tick (LM:=small_angle_libm) (Some (175, 120)%Z) busy_globals)
  = spacecrafts (tick (LM:=small_angle_libm) None busy_globals).
Proof.
  assert (H1 : (dEarth (T:=float) 175 120 <? of_int EARTH_RADIUS) = false)
    by (vm_compute; reflexivity).
  assert (H2 : (distToEarth (T:=float) (mkVector (of_int 175) (of_int 120))
                <=? of_int EARTH_RADIUS) = true)
    by (vm_compute; reflexivity).
  exact (proj1 (doomed_launch_leaves_only_an_explosion (LM:=small_angle_libm)
                  175 120 busy_globals H1 H2)).
Defined.

Lemma draw_polyline_joins_neighbours_witness :
  nth_error (draw_polyline (T:=float) TRAIL_COLOR
               [mkVector 1.5%float 2%float; mkVector 3%float 4.75%float]) 0
  = Some (DrawLine 1 2 3 4 TRAIL_COLOR).
Proof.
  exact (proj2 (draw_polyline_joins_neighbours (T:=float) TRAIL_COLOR
                  [mkVector 1.5%float 2%float; mkVector 3%float 4.75%float])
               0%nat _ _ eq_refl eq_refl).
Defined.

Lemma real_vector_nonzero : (x real_vector <> 0 \/ y real_vector <> 0)%R.
Proof. left. cbn. lra. Qed.

Lemma normalize_then_scale_restores_witness :
  Vector_mag (Vector_normalize real_vector) = 1%R.
Proof.
  exact (proj1 (proj2 (normalize_then_scale_restores real_vector))
               real_vector_nonzero).
Defined.

Lemma real_tap_far : (dEarth (T:=R) 210 120 <? of_int EARTH_RADIUS) = false.
Proof.
  assert (E : dEarth (T:=R) 210 120 = 50%R).
  { unfold dEarth, pow2. cbn [add mul sqrt of_int real_arith].
    change (IZR (int_sub 210 CENTER_X)) with 50%R.
    change (IZR (int_sub 120 CENTER_Y)) with 0%R.
    replace (50 * 50 + 0 * 0)%R with (Rsqr 50) by (unfold Rsqr; ring).
    apply sqrt_Rsqr. lra. }
  rewrite E. cbn [ltb of_int real_arith]. unfold Rltb.
  change (IZR EARTH_RADIUS) with 15%R.
  destruct (Rlt_dec 50 15); [lra | reflexivity].
Qed.

Lemma launch_is_tangential_witness :
  exists s : Spacecraft R,
    addSpacecraft 210 120 real_globals = with_spacecraft real_globals s
    /\ position s = mkVector 210%R 120%R.
Proof.
  destruct (launch_is_tangential 210 120 real_globals real_tap_far)
    as (s & Ha & Hp & _).
  exists s. split; [exact Ha | exact Hp].
Defined.

End ConcreteMore.

(** ** Where spacecraft come from *)

Section CraftCount.
Context {T : Type} {AR : Arith T} {LM : Libm T}.
Local Open Scope arith_scope.

Lemma survivors_at_most (mX mY : T) (v : list (Spacecraft T)) :
  (length (flat_map (survivor mX mY) v) <= length v)%nat.
Proof.
  destruct (outcome_counts mX mY v) as [H _]. lia.
Qed.

(** X: the number of ships.  A frame without a tap never adds a spacecraft,
    and a frame with a tap adds at most one: the count shown as "Ships" can
    only grow by taps, one at a time. *)
Theorem ships_grow_only_by_taps (touch : option (Z * Z)) (g : Sim T) :
  (length (spacecrafts (tick touch g))
   <= length (spacecrafts g)
      + match touch with Some _ => 1 | None => 0 end)%nat.
Proof.
  rewrite tick_fields. cbv zeta. cbn [spacecrafts].
  eapply Nat.le_trans; [apply survivors_at_most|].
  destruct touch as [[tx ty]|]; [|lia].
  unfold addSpacecraft.
  destruct (dEarth tx ty <? of_int EARTH_RADIUS); cbn [spacecrafts].
  - simpl. lia.
  - rewrite length_app. simpl. lia.
Qed.

End CraftCount.

(** ** The surviving update, spelled out *)

Section Bookkeeping.
Local Open Scope arith_scope.

(** C4.  A craft that passes both collision tests
    - keeps its old energy as [prevEnergy];
    - is integrated: its new position and velocity are the old ones plus
      (k1 + 2 k2 + 2 k3 + k4) / 6 for the four stages written below, each
      stage sampling the acceleration at the previous stage's point with
      half steps 0.5, 0.5 and a full step (in the arithmetic of the run, in
      the order of the source);
    - has the new position appended to its trail, the oldest point dropped
      once 50 are held;
    - has its energy recomputed from the new state as
      0.5 * |v| * |v| - 2500 / r, r the distance to the screen centre;
    - and then, when energy - prevEnergy exceeds 0.1, has its sparkle flag
      set and one sparkle of life 20 appended at the new position, otherwise
      has the flag cleared and nothing appended.
    In exact arithmetic the new position and velocity are one classical RK4
    step of size 1 in the described gravity field, the new energy is the
    Earth-centred specific orbital energy of the new state, and the flag is
    set exactly when that energy exceeds the old one by more than 1/10. *)
Theorem surviving_update_bookkeeping :
  (forall (T : Type) (AR : Arith T) (s : Spacecraft T) (g : Sim T),
      (distToEarth (position s) <=? of_int EARTH_RADIUS) = false ->
      (distToMoon (moonX g) (moonY g) (position s) <=? of_int MOON_RADIUS)
      = false ->
      let acc := calculateAcceleration (moonX g) (moonY g) in
      let r0 := position s in
      let v0 := velocity s in
      let half := of_int 1 / of_int 2 in
      let sixth := of_int 1 / of_int 6 in
      let k1v := acc r0 in
      let k1r := Vector_mult v0 (of_int 1) in
      let k2v := acc (Vector_add r0 (Vector_mult k1r half)) in
      let k2r := Vector_mult (Vector_add v0 (Vector_mult k1v half)) (of_int 1) in
      let k3v := acc (Vector_add r0 (Vector_mult k2r half)) in
      let k3r := Vector_mult (Vector_add v0 (Vector_mult k2v half)) (of_int 1) in
      let k4v := acc (Vector_add r0 k3r) in
      let k4r := Vector_mult (Vector_add v0 k3v) (of_int 1) in
      let s' := snd (fst (Spacecraft_update s g)) in
      let g' := snd (Spacecraft_update s g) in
      fst (fst (Spacecraft_update s g)) = false
      /\ prevEnergy s' = energy s
      /\ position s' =
         Vector_add r0
           (Vector_mult
              (Vector_add (Vector_add k1r (Vector_mult k2r (of_int 2)))
                          (Vector_add (Vector_mult k3r (of_int 2)) k4r))
              sixth)
      /\ velocity s' =
         Vector_add v0
           (Vector_mult
              (Vector_add (Vector_add k1v (Vector_mult k2v (of_int 2)))
                          (Vector_add (Vector_mult k3v (of_int 2)) k4v))
              sixth)
      /\ trail s' = fifo_push 50 (trail s) (position s')
      /\ energy s' =
         half * sqrt (x (velocity s') * x (velocity s')
                      + y (velocity s') * y (velocity s'))
              * sqrt (x (velocity s') * x (velocity s')
                      + y (velocity s') * y (velocity s'))
         - of_int 2500
           / sqrt ((x (position s') - of_int 160) * (x (position s') - of_int 160)
                   + (y (position s') - of_int 120) * (y (position s') - of_int 120))
      /\ explosionEffects g' = explosionEffects g
      /\ (if of_int 1 / of_int 10 <? energy s' - prevEnergy s'
          then sparkle s' = true
               /\ sparkleEffects g' =
                  sparkleEffects g
                  ++ [mkSparkle (x (position s')) (y (position s')) 20]
          else sparkle s' = false /\ sparkleEffects g' = sparkleEffects g))
  /\ (forall (s : Spacecraft R) (g : Sim R),
      (distToEarth (position s) <=? of_int EARTH_RADIUS) = false ->
      (distToMoon (moonX g) (moonY g) (position s) <=? of_int MOON_RADIUS)
      = false ->
      let s' := snd (fst (Spacecraft_update s g)) in
      (pair_of (position s'), pair_of (velocity s')) =
      Described.classical_rk4
        (Described.orbit_ode (Described.gravity (moonX g, moonY g))) 1%R
        (pair_of (position s), pair_of (velocity s))
      /\ energy s' =
         Described.specific_orbital_energy
           (pair_of (position s')) (pair_of (velocity s'))
      /\ (sparkle s' = true <-> (1 / 10 < energy s' - energy s)%R)).
Proof.
  split.
  - intros T AR s g HE HM. cbv zeta.
    rewrite (Spacecraft_update_free s g HE HM). cbv zeta.
    set (pv := rk4_step (moonX g) (moonY g) (position s) (velocity s)).
    destruct (lit_0_1 <? earth_energy (fst pv) (snd pv) - energy s) eqn:Hs;
      unfold with_sparkle;
      cbn [fst snd prevEnergy position velocity trail energy sparkle
           explosionEffects sparkleEffects];
      change (of_int 1 / of_int 10) with (lit_0_1 (T:=T));
      rewrite ?Hs;
      repeat split; try reflexivity;
      try apply (proj1 (push_trail_fifo _ _)).
  - intros s g HE HM s'. subst s'.
    rewrite (Spacecraft_update_free s g HE HM). cbv zeta.
    set (pv := rk4_step (moonX g) (moonY g) (position s) (velocity s)).
    assert (K : (pair_of (fst pv), pair_of (snd pv)) =
                Described.classical_rk4
                  (Described.orbit_ode (Described.gravity (moonX g, moonY g)))
                  1%R (pair_of (position s), pair_of (velocity s)))
      by (apply rk4_step_real).
    destruct (lit_0_1 <? earth_energy (fst pv) (snd pv) - energy s) eqn:Hs;
      cbn [fst snd position velocity energy sparkle];
      (split; [exact K|]); (split; [apply earth_energy_real|]);
      rewrite <- (Rltb_true_iff (1 / 10) (earth_energy (fst pv) (snd pv) - energy s));
      change (Rltb (1 / 10) (earth_energy (fst pv) (snd pv) - energy s))
        with (lit_0_1 <? earth_energy (fst pv) (snd pv) - energy s);
      rewrite Hs; split; intros H; try reflexivity; try discriminate H; exact H.
Qed.

End Bookkeeping.

(** ** What an aged explosion shows *)

Section ExplosionRendering.
Local Open Scope arith_scope.




End ExplosionRendering.

(** ** Concrete evaluations of the surviving update and of the drawn
    explosion *)

Section ConcreteRevised.
Local Open Scope arith_scope.

Lemma crafts_pass_the_tests :
  ((distToEarth (position craft_fast) <=? of_int EARTH_RADIUS) = false
   /\ (distToMoon (moonX sample_globals) (moonY sample_globals)
         (position craft_fast) <=? of_int MOON_RADIUS) = false)
  /\ ((distToEarth (position craft_free) <=? of_int EARTH_RADIUS) = false
      /\ (distToMoon (moonX sample_globals) (moonY sample_globals)
            (position craft_free) <=? of_int MOON_RADIUS) = false).
Proof. vm_compute. repeat split; reflexivity. Qed.

(** C4 at two crafts 60 pixels above the Earth with the Moon at (260, 120):
    the one launched at 10 pixels a frame ends its first step with energy
    about 8.5 and sparkles, the one at 6 pixels a frame ends it with energy
    about -23.6 and does not. *)
Lemma surviving_update_bookkeeping_witness :
  (let s' := snd (fst (Spacecraft_update craft_fast sample_globals)) in
   let g' := snd (Spacecraft_update craft_fast sample_globals) in
   position s' = mkVector 0x1.53fa6281f5dbcp+7%float 0x1.e2ce065b2bddfp+5%float
   /\ velocity s' = mkVector 0x1.3eb5365d0d78bp+3%float 0x1.657aae32aff7p-1%float
   /\ energy s' = 0x1.1027465234dfcp+3%float
   /\ prevEnergy s' = 0%float
   /\ trail s' = [position s']
   /\ sparkle s' = true
   /\ sparkleEffects g' =
      [mkSparkle 0x1.53fa6281f5dbcp+7%float 0x1.e2ce065b2bddfp+5%float 20])
  /\ (let s' := snd (fst (Spacecraft_update craft_free sample_globals)) in
      let g' := snd (Spacecraft_update craft_free sample_globals) in
      position s' = mkVector 0x1.4bfe3441f6ae5p+7%float 0x1.e2d0d9cb3d0e7p+5%float
      /\ velocity s' = mkVector 0x1.7ed2b3237b91p+2%float 0x1.68580838a278ap-1%float
      /\ energy s' = (-0x1.790995eceb7d1p+4)%float
      /\ sparkle s' = false
      /\ sparkleEffects g' = []).
Proof.
  destruct crafts_pass_the_tests as [[HE1 HM1] [HE2 HM2]].
  pose proof (proj1 surviving_update_bookkeeping float float_arith
                craft_fast sample_globals HE1 HM1) as F.
  pose proof (proj1 surviving_update_bookkeeping float float_arith
                craft_free sample_globals HE2 HM2) as G.
  cbv zeta in F, G.
  destruct F as (_ & Fp & Fr & Fv & Ft & Fe & _ & Fs).
  destruct G as (_ & _ & Gr & Gv & _ & Ge & _ & Gs).
  cbv zeta. split.
  - assert (Er : position (snd (fst (Spacecraft_update craft_fast sample_globals)))
                 = mkVector 0x1.53fa6281f5dbcp+7%float 0x1.e2ce065b2bddfp+5%float)
      by (rewrite Fr; vm_compute; reflexivity).
    assert (Ev : velocity (snd (fst (Spacecraft_update craft_fast sample_globals)))
                 = mkVector 0x1.3eb5365d0d78bp+3%float 0x1.657aae32aff7p-1%float)
      by (rewrite Fv; vm_compute; reflexivity).
    assert (Ee : energy (snd (fst (Spacecraft_update craft_fast sample_globals)))
                 = 0x1.1027465234dfcp+3%float)
      by (rewrite Fe, Ev, Er; vm_compute; reflexivity).
    rewrite Ee, Fp in Fs.
    replace (of_int 1 / of_int 10 <? 0x1.1027465234dfcp+3%float - energy craft_fast)
      with true in Fs by (vm_compute; reflexivity).
    destruct Fs as [Fs1 Fs2].
    split; [exact Er|]. split; [exact Ev|]. split; [exact Ee|].
    split; [exact Fp|]. split; [rewrite Ft; reflexivity|].
    split; [exact Fs1|]. rewrite Fs2, Er. reflexivity.
  - assert (Er : position (snd (fst (Spacecraft_update craft_free sample_globals)))
                 = mkVector 0x1.4bfe3441f6ae5p+7%float 0x1.e2d0d9cb3d0e7p+5%float)
      by (rewrite Gr; vm_compute; reflexivity).
    assert (Ev : velocity (snd (fst (Spacecraft_update craft_free sample_globals)))
                 = mkVector 0x1.7ed2b3237b91p+2%float 0x1.68580838a278ap-1%float)
      by (rewrite Gv; vm_compute; reflexivity).
    assert (Ee : energy (snd (fst (Spacecraft_update craft_free sample_globals)))
                 = (-0x1.790995eceb7d1p+4)%float)
      by (rewrite Ge, Ev, Er; vm_compute; reflexivity).
    assert (Gp : prevEnergy (snd (fst (Spacecraft_update craft_free sample_globals)))
                 = energy craft_free)
      by (exact (proj1 (proj2 (proj1 surviving_update_bookkeeping float float_arith
                                 craft_free sample_globals HE2 HM2)))).
    rewrite Ee, Gp in Gs.
    replace (of_int 1 / of_int 10 <? (-0x1.790995eceb7d1p+4)%float - energy craft_free)
      with false in Gs by (vm_compute; reflexivity).
    destruct Gs as [Gs1 Gs2].
    split; [exact Er|]. split; [exact Ev|]. split; [exact Ee|].
    split; [exact Gs1 | exact Gs2].
Defined.



End ConcreteRevised.
